(** * Actuarial premium calculator (app.py): a shallow embedding

    The Streamlit script [app.py] loads a pickled regression model once
    per process, turns three form inputs into a one-row data frame with
    a fixed column order, asks the model for a premium in USD and
    multiplies it by a constant exchange rate to obtain the premium in
    UGX.

    Python integers are [Z], Python strings are [string], the
    [numpy.float64] values handled by the script are IEEE-754 binary64
    numbers ([spec_float] with 53 bits of precision), the resource cache
    of [st.cache_resource] is a [gmap] from call arguments to loaded
    instances, and the script itself runs in a small state-and-exception
    monad over the process state. *)

From Stdlib Require Import ZArith List Bool Lia.
From Stdlib Require Import Floats.SpecFloat.
From stdpp Require Import base option gmap strings.

Import ListNotations.
Local Open Scope Z_scope.
Local Open Scope string_scope.

(** ** Python exceptions and fallible pure code *)

(** The exception classes the script can meet, all of them subclasses of
    [Exception].  [NotADirectoryError] and [FileNotFoundError] are
    subclasses of [OSError] and neither is a subclass of the other.
    [Exception_] stands for any other subclass of [Exception]. *)
Inductive exc_class :=
| FileNotFoundError
| NotADirectoryError
| OSError
| KeyError
| ValueError
| IndexError
| Exception_.

(** An exception object: its class and [str(e)]. *)
Record exception := mk_exception { exc_cls : exc_class; exc_str : string }.

Definition is_FileNotFoundError (e : exception) : bool :=
  match exc_cls e with FileNotFoundError => true | _ => false end.

(** The result of a pure Python expression that may raise. *)
Inductive result (A : Type) :=
| Ok (a : A)
| Err (e : exception).
Arguments Ok {A} a.
Arguments Err {A} e.

Definition rbind {A B} (r : result A) (k : A -> result B) : result B :=
  match r with Ok a => k a | Err e => Err e end.

Fixpoint rmapM {A B} (f : A -> result B) (l : list A) : result (list B) :=
  match l with
  | [] => Ok []
  | x :: l' => rbind (f x) (fun y => rbind (rmapM f l') (fun ys => Ok (y :: ys)))
  end.

(** ** binary64 floating point *)
Module Float64.

Definition prec : Z := 53.
Definition emax : Z := 1024.

(** A [numpy.float64] (or Python [float]) value. *)
Definition float := spec_float.

Definition valid (x : float) : bool := valid_binary prec emax x.

Definition mul (x y : float) : float := SFmul prec emax x y.
Definition add (x y : float) : float := SFadd prec emax x y.

(** Python's [==] on floats: [nan] differs from everything, [-0.0 == 0.0]. *)
Definition eqb (x y : float) : bool := SFeqb x y.

(** Conversion of a Python [int] operand, rounding to nearest even. *)
Definition of_int (z : Z) : float := binary_normalize prec emax z 0 false.

(** The value [m * 2^e], rounded to nearest even. *)
Definition of_scaled (m e : Z) : float := binary_normalize prec emax m e false.

Definition zero : float := S754_zero false.
Definition nan : float := S754_nan.

(** Unary minus. *)
Definition opp (x : float) : float := SFopp x.

(** Python's [<=] and [<] on floats; both are false when a side is [nan]. *)
Definition leb (x y : float) : bool := SFleb x y.
Definition ltb (x y : float) : bool := SFltb x y.

End Float64.

(** ** The pandas objects the script builds *)

(** A data frame of integer cells: its columns in order, each a name and
    the list of its cells. *)
Definition DataFrame := list (string * list Z).

(** A Python [dict] literal with list values, in insertion order. *)
Definition pydict := list (string * list Z).

Definition columns (df : DataFrame) : list string := map fst df.

Definition same_length (d : pydict) : bool :=
  match d with
  | [] => true
  | (_, c) :: d' => forallb (fun kc => Nat.eqb (length (snd kc)) (length c)) d'
  end.

(** [pd.DataFrame(d)]: the columns are the keys of [d] in insertion
    order; pandas raises [ValueError] when the lists differ in length. *)
Definition pd_DataFrame (d : pydict) : result DataFrame :=
  if same_length d then Ok d
  else Err (mk_exception ValueError "All arrays must be of the same length").

Fixpoint get_column (df : DataFrame) (name : string) : result (string * list Z) :=
  match df with
  | [] => Err (mk_exception KeyError name)
  | (k, c) :: df' => if String.eqb k name then Ok (k, c) else get_column df' name
  end.

(** [df[names]]: the named columns, in the order of [names]; a missing
    name raises [KeyError]. *)
Definition getitem (df : DataFrame) (names : list string) : result DataFrame :=
  rmapM (get_column df) names.

(** Row [i] of a frame, in column order. *)
Definition row (df : DataFrame) (i : nat) : option (list Z) :=
  mapM (fun kc : string * list Z => snd kc !! i) df.

(** ** Global constants *)

Definition EXCHANGE_RATE : Z := 3700.

(** ** format_input_data *)

Definition model_feature_order : list string :=
  ["age"; "vehicle_age"; "location_Rural"; "location_Suburban"; "location_Urban"].

(** [1 if location == name else 0] *)
Definition indicator (location name : string) : Z :=
  if String.eqb location name then 1 else 0.

Definition input_dict (age vehicle_age : Z) (location : string) : pydict :=
  [ ("age", [age]);
    ("vehicle_age", [vehicle_age]);
    ("location_Rural", [indicator location "Rural"]);
    ("location_Suburban", [indicator location "Suburban"]);
    ("location_Urban", [indicator location "Urban"]) ].

Definition format_input_data (age vehicle_age : Z) (location : string)
  : result DataFrame :=
  rbind (pd_DataFrame (input_dict age vehicle_age location))
        (fun input_df => getitem input_df model_feature_order).

(** ** The model, the artifacts on disk and the process state *)

(** The deserialized predictor: an opaque object with one method,
    [model.predict(df)], which returns one value per row or raises. *)
Record Model := { predict : DataFrame -> result (list Float64.float) }.

(** What [joblib.load] meets at a path.  A file that exists holds a
    pickled model instance, or something whose deserialization raises.
    A path with no file behind it and no entry here makes [open] raise
    FileNotFoundError; [Unopenable e] stands for a path with no file
    behind it at which [open] fails with another error [e]: a path that
    runs through a regular file (NotADirectoryError), a name with a NUL
    character (ValueError), a name that is too long (OSError). *)
Inductive artifact :=
| Pickled (m : Model)
| Corrupt (e : exception)
| Unopenable (e : exception).

(** An object created by a deserialization: its identity and its value.
    The script never mutates a model, so the value travels with it. *)
Record instance := { obj_id : nat; obj_model : Model }.

(** What the page shows.  The HTML cards of the script are kept as
    structured elements carrying the values handed to them; the two
    result cards format their value on display (two decimals for USD,
    none for UGX), which is not part of this model. *)
Inductive element :=
| st_markdown (body : string)
| st_error (msg : string)
| st_caption (body : string)
| info_age (age : Z)
| info_vehicle_age (vehicle_age : Z)
| info_location (location : string)
| result_usd (prediction_usd : Float64.float)
| result_ugx (prediction_ugx : Float64.float)
| st_exception (e : exception).

(** The state of the server process during a script run: the resource
    cache of [st.cache_resource], keyed by the arguments of the call
    ([None] when [load_model()] is called without argument), the next
    fresh object identity, two call counters, and the elements drawn so
    far in the current run. *)
Record world := mk_world {
  cache : gmap (option string) instance;
  next_id : nat;
  joblib_calls : nat;
  predict_calls : nat;
  ui : list element
}.

Definition init_world : world := mk_world ∅ 0 0 0 [].

Definition set_cache (c : gmap (option string) instance) (w : world) : world :=
  mk_world c (next_id w) (joblib_calls w) (predict_calls w) (ui w).
Definition set_ui (u : list element) (w : world) : world :=
  mk_world (cache w) (next_id w) (joblib_calls w) (predict_calls w) u.

(** ** The script monad: state, Python exceptions and [st.stop()] *)

Inductive outcome (A : Type) :=
| Ret (a : A)
| Raise (e : exception)
| Stop.
Arguments Ret {A} a.
Arguments Raise {A} e.
Arguments Stop {A}.

Definition M (A : Type) : Type := world -> outcome A * world.

Definition ret {A} (a : A) : M A := fun w => (Ret a, w).

Definition bind {A B} (c : M A) (k : A -> M B) : M B :=
  fun w =>
    match c w with
    | (Ret a, w') => k a w'
    | (Raise e, w') => (Raise e, w')
    | (Stop, w') => (Stop, w')
    end.

Notation "x <~ c ;; k" := (bind c (fun x => k))
  (at level 100, c at next level, right associativity).
Notation "c >> k" := (bind c (fun _ => k))
  (at level 100, right associativity).

(** A pure expression that may raise. *)
Definition lift {A} (r : result A) : M A :=
  fun w => match r with Ok a => (Ret a, w) | Err e => (Raise e, w) end.

(** [try: c  except Exception as e: h e].  The handler does not see the
    script-control exception of [st.stop()]. *)
Definition try_except {A} (c : M A) (h : exception -> M A) : M A :=
  fun w =>
    match c w with
    | (Raise e, w') => h e w'
    | r => r
    end.

(** The double quote character, for the HTML attributes of the page. *)
Definition dq : string := String (Ascii.ascii_of_nat 34) EmptyString.

Definition main_header : string :=
  "<h1 class=" ++ dq ++ "main-header" ++ dq ++ ">Actuarial Premium Calculator</h1>".

Definition draw (el : element) : M unit :=
  fun w => (Ret tt, set_ui (ui w ++ [el]) w).

Definition st_stop {A} : M A := fun w => (Stop, w).

(** ** load_model *)

Section App.

(** The files of the app directory.  They do not change while the
    process runs. *)
Variable fs : gmap string artifact.

Definition no_such_file (path : string) : exception :=
  mk_exception FileNotFoundError
    ("[Errno 2] No such file or directory: '" ++ path ++ "'").

(** [joblib.load(path)]: opens the file, which fails when there is no
    file to open, and unpickles the model instance it holds into a new
    object. *)
Definition joblib_load (path : string) : M instance :=
  fun w =>
    let w1 := mk_world (cache w) (next_id w) (S (joblib_calls w))
                       (predict_calls w) (ui w) in
    match fs !! path with
    | None => (Raise (no_such_file path), w1)
    | Some (Unopenable e) => (Raise e, w1)
    | Some (Corrupt e) => (Raise e, w1)
    | Some (Pickled m) =>
        (Ret {| obj_id := next_id w; obj_model := m |},
         mk_world (cache w) (S (next_id w)) (S (joblib_calls w))
                  (predict_calls w) (ui w))
    end.

Definition not_found_msg (model_path : string) : string :=
  "❌ Model file not found. Ensure '" ++ model_path ++ "' is in the app directory.".

Definition load_error_msg (e : exception) : string :=
  "❌ An error occurred loading the model: " ++ exc_str e.

Definition default_model_path : string := "gbm_auto_model.pkl".

(** The body of [load_model], below the decorator. *)
Definition load_model_body (model_path : string) : M instance :=
  try_except (joblib_load model_path)
    (fun e =>
       if is_FileNotFoundError e then
         draw (st_error (not_found_msg model_path)) >> st_stop
       else
         draw (st_error (load_error_msg e)) >> st_stop).

(** [@st.cache_resource]: a value returned for the same arguments
    earlier in the process is returned again; otherwise the function
    runs, and what it returns is stored.  Nothing is stored when the
    function raises or stops the script. *)
Definition cache_resource (f : option string -> M instance)
    (arg : option string) : M instance :=
  fun w =>
    match cache w !! arg with
    | Some v => (Ret v, w)
    | None =>
        match f arg w with
        | (Ret v, w') => (Ret v, set_cache (<[arg := v]> (cache w')) w')
        | r => r
        end
    end.

Definition load_model : option string -> M instance :=
  cache_resource
    (fun arg => load_model_body (default default_model_path arg)).

(** ** main *)

(** What the three widgets and the button hold when the script runs. *)
Record inputs := {
  age_input : Z;
  vehicle_input : Z;
  location_input : string;
  calculate_btn : bool
}.

(** [model.predict(input_df)], counted. *)
Definition model_predict (model : instance) (input_df : DataFrame)
  : M (list Float64.float) :=
  fun w =>
    let w1 := mk_world (cache w) (next_id w) (joblib_calls w)
                       (S (predict_calls w)) (ui w) in
    match predict (obj_model model) input_df with
    | Ok ys => (Ret ys, w1)
    | Err e => (Raise e, w1)
    end.

(** [ys[0]] *)
Definition getitem0 (ys : list Float64.float) : result Float64.float :=
  match ys with
  | y :: _ => Ok y
  | [] => Err (mk_exception IndexError "index 0 is out of bounds for axis 0 with size 0")
  end.

(** [prediction_usd * EXCHANGE_RATE]: a [float64] times a Python [int]. *)
Definition to_ugx (prediction_usd : Float64.float) : Float64.float :=
  Float64.mul prediction_usd (Float64.of_int EXCHANGE_RATE).

(** The three statements under [st.spinner]: encode, predict, convert. *)
Definition compute_premium (model : instance) (age vehicle_age : Z)
    (location : string) : M (Float64.float * Float64.float) :=
  input_df <~ lift (format_input_data age vehicle_age location) ;;
  ys <~ model_predict model input_df ;;
  prediction_usd <~ lift (getitem0 ys) ;;
  ret (prediction_usd, to_ugx prediction_usd).

Definition main (inp : inputs) : M unit :=
  model <~ load_model None ;;
  let age := age_input inp in
  let vehicle_age := vehicle_input inp in
  let location := location_input inp in
  draw (st_markdown "### Risk Assessment Parameters") >>
  draw (st_markdown main_header) >>
  draw (st_markdown "**Powered by Machine Learning** - Estimates insurance premiums using GBM model.") >>
  draw (st_markdown "---") >>
  draw (info_age age) >>
  draw (info_vehicle_age vehicle_age) >>
  draw (info_location location) >>
  (if calculate_btn inp then
     p <~ compute_premium model age vehicle_age location ;;
     draw (result_usd (fst p)) >>
     draw (result_ugx (snd p))
   else ret tt) >>
  draw (st_markdown "---") >>
  draw (st_caption "© 2025 - Group 9 | BSAS Data Analysis III").

(** The module body: the style sheet (its rules are not reproduced
    here), then [main()]. *)
Definition APP_CSS : string := "<style>...</style>".

Definition app (inp : inputs) : M unit :=
  draw (st_markdown APP_CSS) >> main inp.

(** One run of the script by the Streamlit server: the page starts
    empty; [st.stop()] ends the run; an uncaught exception ends the run
    and is shown on the page.  The process, and with it the resource
    cache, lives on. *)
Definition run_script (inp : inputs) (w : world) : world :=
  match app inp (set_ui [] w) with
  | (Ret _, w') => w'
  | (Stop, w') => w'
  | (Raise e, w') => set_ui (ui w' ++ [st_exception e]) w'
  end.

(** The states a process can be in: it starts with an empty cache, and
    advances by calls of [load_model] and by script runs. *)
Inductive reachable : world -> Prop :=
| reach_init : reachable init_world
| reach_load arg w : reachable w -> reachable (snd (load_model arg w))
| reach_run inp w : reachable w -> reachable (run_script inp w).

End App.

(** ** The data model of the specification *)

(** A risk input within the bounds of the form's widgets. *)
Definition valid_RiskInput (age vehicle_age : Z) (location : string) : Prop :=
  18 <= age <= 80 /\ 1 <= vehicle_age <= 20 /\
  (location = "Urban" \/ location = "Suburban" \/ location = "Rural").

(** The feature row handed to the model: the only row of the frame
    built by [format_input_data]. *)
Definition feature_row (age vehicle_age : Z) (location : string)
  : option (list Z) :=
  match format_input_data age vehicle_age location with
  | Ok df => row df 0
  | Err _ => None
  end.

(** The three location indicator cells of a feature row. *)
Definition location_cells (r : list Z) : list Z := drop 2 r.

Definition sumZ (l : list Z) : Z := fold_right Z.add 0 l.

(** Some binary64 constants, written as mantissa times a power of two:
    2.5 = 5 * 2^50 * 2^-51, 9250.0, 100.0, 370000.0, and the doubles
    nearest to 0.1 and 0.2 (0x1.999999999999ap-4 and
    0x1.999999999999ap-3). *)
Definition f2_5 : Float64.float := S754_finite false (5 * 2 ^ 50) (-51).
Definition f9250 : Float64.float := S754_finite false (9250 * 2 ^ 39) (-39).
Definition f100 : Float64.float := S754_finite false (100 * 2 ^ 46) (-46).
Definition f370000 : Float64.float := S754_finite false (370000 * 2 ^ 34) (-34).
Definition f0_1 : Float64.float := S754_finite false 7205759403792794 (-56).
Definition f0_2 : Float64.float := S754_finite false 7205759403792794 (-55).

(** The conversion of the specification: [usd * 3700]. *)
Definition toSecondaryCurrency (usd : Float64.float) : Float64.float :=
  to_ugx usd.

(** ** Vocabulary for exact floating-point results *)

(** The mantissa [q] followed by [k] zero bits. *)
Definition pshl (q : positive) (k : Z) : positive :=
  match k with
  | Z.pos d => Pos.iter xO q d
  | _ => q
  end.

(** The binary64 number of magnitude [p], a whole number of at most 53
    bits: the mantissa holds [p] shifted up to 53 bits. *)
Definition canon (s : bool) (p : positive) : Float64.float :=
  S754_finite s (pshl p (53 - Z.pos (digits2_pos p)))
              (Z.pos (digits2_pos p) - 53).

Definition canonZ (z : Z) : Float64.float :=
  match z with
  | Z0 => S754_zero false
  | Z.pos p => canon false p
  | Z.neg p => canon true p
  end.

(** [toSecondaryCurrency(a+b) == toSecondaryCurrency(a) + toSecondaryCurrency(b)] *)
Definition linear_at (a b : Float64.float) : bool :=
  Float64.eqb (toSecondaryCurrency (Float64.add a b))
              (Float64.add (toSecondaryCurrency a) (toSecondaryCurrency b)).

(** ** Vocabulary for the loader and the page *)

(** The path a call of [load_model] reads. *)
Definition path_of (arg : option string) : string :=
  default default_model_path arg.

(** [n] calls of [load_model] with the same argument, one after the
    other, and what each of them produced. *)
Fixpoint load_repeatedly (fs : gmap string artifact) (arg : option string)
    (n : nat) (w : world) : list (outcome instance) * world :=
  match n with
  | O => ([], w)
  | S n' =>
      let (o, w1) := load_model fs arg w in
      let (os, w2) := load_repeatedly fs arg n' w1 in
      (o :: os, w2)
  end.

(** Two calls in a row return the same object, and between them
    [joblib.load] ran once. *)
Definition loads_once (fs : gmap string artifact) (arg : option string)
    (w : world) : Prop :=
  exists v w1 w2,
    load_model fs arg w = (Ret v, w1) /\
    load_model fs arg w1 = (Ret v, w2) /\
    joblib_calls w2 = S (joblib_calls w).

(** Every cached instance was unpickled from the file its key names. *)
Definition cache_sound (fs : gmap string artifact) (w : world) : Prop :=
  forall arg v,
    cache w !! arg = Some v -> fs !! path_of arg = Some (Pickled (obj_model v)).

(** The elements [main] draws before and after the results. *)
Definition page_head (inp : inputs) : list element :=
  [ st_markdown "### Risk Assessment Parameters";
    st_markdown main_header;
    st_markdown "**Powered by Machine Learning** - Estimates insurance premiums using GBM model.";
    st_markdown "---";
    info_age (age_input inp);
    info_vehicle_age (vehicle_input inp);
    info_location (location_input inp) ].

Definition page_foot : list element :=
  [ st_markdown "---";
    st_caption "© 2025 - Group 9 | BSAS Data Analysis III" ].

Definition is_result (el : element) : bool :=
  match el with
  | result_usd _ | result_ugx _ => true
  | _ => false
  end.

(** Test models: one that always predicts [y], and one that rejects
    frames whose age is below 18. *)
Definition stub (y : Float64.float) : Model := {| predict := fun _ => Ok [y] |}.

Definition shape_error : exception :=
  mk_exception ValueError "X has 5 features, but the model is expecting 4 features as input.".

Definition picky : Model :=
  {| predict := fun df =>
       match row df 0 with
       | Some (age :: _) => if Z.ltb age 18 then Err shape_error else Ok [f2_5]
       | _ => Err shape_error
       end |}.

Definition submit (age vehicle_age : Z) (location : string) : inputs :=
  {| age_input := age; vehicle_input := vehicle_age;
     location_input := location; calculate_btn := true |}.

Definition app_dir (m : Model) : gmap string artifact :=
  {[ default_model_path := Pickled m ]}.

(** ** Vocabulary for sessions *)

(** A session: the script runs once for each interaction, in order, in
    the same process. *)
Definition session (fs : gmap string artifact) (inps : list inputs)
    (w : world) : world :=
  fold_left (fun w inp => run_script fs inp w) inps w.


(** What the widgets of [main] allow: [min_value] and [max_value] of the
    two number inputs and the options of the select box. *)
Definition widget_ok (inp : inputs) : Prop :=
  18 <= age_input inp <= 80 /\ 1 <= vehicle_input inp <= 20 /\
  (location_input inp = "Urban" \/ location_input inp = "Suburban" \/
   location_input inp = "Rural").

(** The error [open] raises at a path with no file behind it; [None]
    when the file exists. *)
Definition open_error (fs : gmap string artifact) (path : string)
  : option exception :=
  match fs !! path with
  | None => Some (no_such_file path)
  | Some (Unopenable e) => Some e
  | Some (Pickled _) | Some (Corrupt _) => None
  end.

(** The message [load_model] draws for an exception raised by
    [joblib.load]: the first [except] clause takes FileNotFoundError,
    the second everything else. *)
Definition load_failure_msg (model_path : string) (e : exception) : string :=
  if is_FileNotFoundError e then not_found_msg model_path
  else load_error_msg e.

(** What [open] raises at a path that runs through a regular file. *)
Definition not_a_directory (path : string) : exception :=
  mk_exception NotADirectoryError
    ("[Errno 20] Not a directory: '" ++ path ++ "'").

(** A file whose unpickling fails. *)
Definition bad_pickle : exception :=
  mk_exception Exception_ "invalid load key, 'x'.".

(** * Properties of the encoder *)

Lemma format_input_data_eq age vehicle_age location :
  format_input_data age vehicle_age location =
  Ok [ ("age", [age]);
       ("vehicle_age", [vehicle_age]);
       ("location_Rural", [indicator location "Rural"]);
       ("location_Suburban", [indicator location "Suburban"]);
       ("location_Urban", [indicator location "Urban"]) ].
Proof. reflexivity. Qed.

Lemma feature_row_eq age vehicle_age location :
  feature_row age vehicle_age location =
  Some [ age; vehicle_age; indicator location "Rural";
         indicator location "Suburban"; indicator location "Urban" ].
Proof. reflexivity. Qed.

Lemma indicator_true location name :
  location = name -> indicator location name = 1.
Proof. intros ->. unfold indicator. now rewrite String.eqb_refl. Qed.

Lemma indicator_false location name :
  location <> name -> indicator location name = 0.
Proof.
  intros Hne. unfold indicator.
  destruct (String.eqb_spec location name); [contradiction | reflexivity].
Qed.

Lemma indicator_cases location name :
  (location = name /\ indicator location name = 1) \/
  (location <> name /\ indicator location name = 0).
Proof.
  destruct (String.eqb_spec location name) as [E | E].
  - left. split; [exact E | now apply indicator_true].
  - right. split; [exact E | now apply indicator_false].
Qed.

(** C1: for a valid risk input the frame has the five columns age,
    vehicle_age, location_Rural, location_Suburban, location_Urban in
    that order, and its row holds the matching cells in the same order;
    (40, 5, Urban) gives [40, 5, 0, 0, 1] and (18, 1, Rural) gives
    [18, 1, 1, 0, 0]. *)
Theorem format_input_data_fixed_order :
  (forall age vehicle_age location,
      valid_RiskInput age vehicle_age location ->
      exists df,
        format_input_data age vehicle_age location = Ok df /\
        columns df = ["age"; "vehicle_age"; "location_Rural";
                      "location_Suburban"; "location_Urban"] /\
        row df 0 = Some [ age; vehicle_age;
                          indicator location "Rural";
                          indicator location "Suburban";
                          indicator location "Urban" ]) /\
  feature_row 40 5 "Urban" = Some [40; 5; 0; 0; 1] /\
  feature_row 18 1 "Rural" = Some [18; 1; 1; 0; 0].
Proof.
  split; [| split; reflexivity].
  intros age vehicle_age location _.
  eexists. split; [apply format_input_data_eq |]. split; reflexivity.
Qed.

Lemma format_input_data_fixed_order_witness :
  valid_RiskInput 18 1 "Rural" /\
  exists df,
    format_input_data 18 1 "Rural" = Ok df /\
    columns df = ["age"; "vehicle_age"; "location_Rural";
                  "location_Suburban"; "location_Urban"] /\
    row df 0 = Some [18; 1; 1; 0; 0].
Proof.
  assert (H : valid_RiskInput 18 1 "Rural").
  { unfold valid_RiskInput. split; [lia | split; [lia | right; right; reflexivity]]. }
  split; [exact H |].
  exact (proj1 format_input_data_fixed_order 18 1 "Rural" H).
Defined.

(** C2: for a valid risk input the row has five entries, exactly one of
    the three location cells is 1, the other two are 0, and the three
    cells add up to 1. *)
Theorem format_input_data_one_hot age vehicle_age location :
  valid_RiskInput age vehicle_age location ->
  exists r s u,
    feature_row age vehicle_age location = Some [age; vehicle_age; r; s; u] /\
    length [age; vehicle_age; r; s; u] = 5%nat /\
    ((r = 1 /\ s = 0 /\ u = 0) \/
     (r = 0 /\ s = 1 /\ u = 0) \/
     (r = 0 /\ s = 0 /\ u = 1)) /\
    r + s + u = 1.
Proof.
  intros (_ & _ & Hloc).
  exists (indicator location "Rural"), (indicator location "Suburban"),
         (indicator location "Urban").
  split; [apply feature_row_eq |]. split; [reflexivity |].
  destruct Hloc as [-> | [-> | ->]]; cbn; split; auto.
Qed.

Lemma format_input_data_one_hot_witness :
  exists r s u,
    feature_row 40 5 "Suburban" = Some [40; 5; r; s; u] /\
    length [40; 5; r; s; u] = 5%nat /\
    ((r = 1 /\ s = 0 /\ u = 0) \/
     (r = 0 /\ s = 1 /\ u = 0) \/
     (r = 0 /\ s = 0 /\ u = 1)) /\
    r + s + u = 1.
Proof.
  apply (format_input_data_one_hot 40 5 "Suburban").
  unfold valid_RiskInput.
  split; [lia | split; [lia | right; left; reflexivity]].
Defined.

(** C8: when the location is none of Urban, Suburban and Rural, the
    encoder raises nothing and the three location cells are all 0. *)
Theorem format_input_data_unknown_location age vehicle_age location :
  location <> "Urban" -> location <> "Suburban" -> location <> "Rural" ->
  format_input_data age vehicle_age location =
    Ok [ ("age", [age]); ("vehicle_age", [vehicle_age]);
         ("location_Rural", [0]); ("location_Suburban", [0]);
         ("location_Urban", [0]) ] /\
  feature_row age vehicle_age location = Some [age; vehicle_age; 0; 0; 0].
Proof.
  intros HU HS HR.
  rewrite feature_row_eq, format_input_data_eq.
  rewrite !indicator_false by assumption. split; reflexivity.
Qed.

Lemma format_input_data_unknown_location_witness :
  format_input_data 40 5 "urban" =
    Ok [ ("age", [40]); ("vehicle_age", [5]);
         ("location_Rural", [0]); ("location_Suburban", [0]);
         ("location_Urban", [0]) ] /\
  feature_row 40 5 "urban" = Some [40; 5; 0; 0; 0].
Proof.
  apply (format_input_data_unknown_location 40 5 "urban"); discriminate.
Defined.

(** C9: whatever the integers age and vehicle_age and whatever the
    location string, the encoder succeeds and the first two cells of the
    row are age and vehicle_age unchanged: nothing is checked against a
    range or clamped. *)
Theorem format_input_data_verbatim (age vehicle_age : Z) (location : string) :
  exists df rest,
    format_input_data age vehicle_age location = Ok df /\
    row df 0 = Some (age :: vehicle_age :: rest) /\
    get_column df "age" = Ok ("age", [age]) /\
    get_column df "vehicle_age" = Ok ("vehicle_age", [vehicle_age]).
Proof.
  eexists. eexists. split; [apply format_input_data_eq |].
  repeat split; reflexivity.
Qed.

(** C10: for any location string the three location cells add up to 0 or
    to 1, and they add up to 1 exactly when the string is Rural,
    Suburban or Urban, compared character by character. *)
Theorem location_cells_sum (age vehicle_age : Z) (location : string) :
  exists r,
    feature_row age vehicle_age location = Some r /\
    (sumZ (location_cells r) = 0 \/ sumZ (location_cells r) = 1) /\
    (sumZ (location_cells r) = 1 <->
     location = "Rural" \/ location = "Suburban" \/ location = "Urban").
Proof.
  eexists. split; [apply feature_row_eq |].
  cbn [location_cells drop sumZ fold_right].
  destruct (indicator_cases location "Rural") as [[E1 ->] | [E1 ->]];
  destruct (indicator_cases location "Suburban") as [[E2 ->] | [E2 ->]];
  destruct (indicator_cases location "Urban") as [[E3 ->] | [E3 ->]];
  try (exfalso; congruence);
  (split; [auto | split; [intros H; try discriminate H; tauto | intros H; try reflexivity; tauto]]).
Qed.

(** * Properties of the loader *)

Section Loader.

Variable fs : gmap string artifact.

(** What a call of [load_model] does, by the state of the cache and of
    the file. *)
Lemma load_model_unfold arg w :
  load_model fs arg w =
  match cache w !! arg with
  | Some v => (Ret v, w)
  | None =>
      match fs !! path_of arg with
      | Some (Pickled m) =>
          let v := {| obj_id := next_id w; obj_model := m |} in
          (Ret v,
           mk_world (<[arg := v]> (cache w)) (S (next_id w))
                    (S (joblib_calls w)) (predict_calls w) (ui w))
      | Some (Corrupt e) | Some (Unopenable e) =>
          (Stop,
           mk_world (cache w) (next_id w) (S (joblib_calls w)) (predict_calls w)
                    (ui w ++ [st_error (if is_FileNotFoundError e
                                        then not_found_msg (path_of arg)
                                        else load_error_msg e)]))
      | None =>
          (Stop,
           mk_world (cache w) (next_id w) (S (joblib_calls w)) (predict_calls w)
                    (ui w ++ [st_error (not_found_msg (path_of arg))]))
      end
  end.
Proof.
  unfold load_model, cache_resource, load_model_body, try_except, joblib_load,
    path_of.
  destruct (cache w !! arg) as [v |]; [reflexivity |].
  destruct (fs !! default default_model_path arg) as [[m | e | e] |]; cbn.
  - reflexivity.
  - destruct (is_FileNotFoundError e); reflexivity.
  - destruct (is_FileNotFoundError e); reflexivity.
  - reflexivity.
Qed.

Lemma load_model_hit arg w v :
  cache w !! arg = Some v -> load_model fs arg w = (Ret v, w).
Proof. intros H. rewrite load_model_unfold, H. reflexivity. Qed.

(** A call that returns leaves its result in the cache. *)
Lemma load_model_ret_cached arg w v w1 :
  load_model fs arg w = (Ret v, w1) -> cache w1 !! arg = Some v.
Proof.
  rewrite load_model_unfold.
  destruct (cache w !! arg) as [v0 |] eqn:Hc.
  - intros [= <- <-]. exact Hc.
  - destruct (fs !! path_of arg) as [[m | e | e] |]; cbn; intros [= <- <-].
    cbn. apply lookup_insert_eq.
Qed.

(** The outcome of a call does not depend on what is on the page, and a
    call that returns draws nothing. *)
Lemma load_model_ret_ui arg w u v w1 :
  load_model fs arg w = (Ret v, w1) ->
  load_model fs arg (set_ui u w) = (Ret v, set_ui u w1).
Proof.
  rewrite !load_model_unfold. cbn.
  destruct (cache w !! arg) as [v0 |].
  - intros [= <- <-]. reflexivity.
  - destruct (fs !! path_of arg) as [[m | e | e] |]; cbn; intros [= <- <-].
    reflexivity.
Qed.

Lemma cache_sound_init : cache_sound fs init_world.
Proof. intros arg v H. cbn in H. rewrite lookup_empty in H. discriminate. Qed.

Lemma cache_sound_ext w w' :
  cache w' = cache w -> cache_sound fs w -> cache_sound fs w'.
Proof. unfold cache_sound. intros ->. auto. Qed.

Lemma cache_sound_load arg w :
  cache_sound fs w -> cache_sound fs (snd (load_model fs arg w)).
Proof.
  intros Hs. rewrite load_model_unfold.
  destruct (cache w !! arg) as [v0 |]; [exact Hs |].
  destruct (fs !! path_of arg) as [[m | e | e] |] eqn:Hf; cbn;
    try (eapply cache_sound_ext; [| exact Hs]; reflexivity).
  intros arg' v'. cbn. rewrite lookup_insert.
  destruct (decide (arg = arg')) as [<- | Hne].
  - intros [= <-]. exact Hf.
  - apply Hs.
Qed.

(** After the model is loaded, [main] only draws and predicts: the
    cache is the one [load_model] left. *)
Lemma main_cache inp w :
  cache (snd (main fs inp w)) = cache (snd (load_model fs None w)).
Proof.
  unfold main. unfold bind at 1.
  destruct (load_model fs None w) as [[model | e |] w1]; [| reflexivity ..].
  unfold compute_premium, model_predict, bind, draw, lift, ret.
  rewrite format_input_data_eq. cbn.
  destruct (calculate_btn inp); [| reflexivity]. cbn.
  destruct (predict (obj_model model) _) as [[| y ys] | e]; reflexivity.
Qed.

Lemma run_script_cache inp w :
  cache (run_script fs inp w) =
  cache (snd (load_model fs None (set_ui [st_markdown APP_CSS] w))).
Proof.
  unfold run_script, app. unfold bind at 1. cbn.
  rewrite <- (main_cache inp).
  destruct (main fs inp _) as [[[] | e |] w1]; reflexivity.
Qed.

Lemma cache_sound_run inp w :
  cache_sound fs w -> cache_sound fs (run_script fs inp w).
Proof.
  intros Hs. eapply cache_sound_ext; [apply run_script_cache |].
  apply cache_sound_load. eapply cache_sound_ext; [| exact Hs]. reflexivity.
Qed.

Lemma reachable_cache_sound w : reachable fs w -> cache_sound fs w.
Proof.
  induction 1 as [| arg w _ IH | inp w _ IH].
  - apply cache_sound_init.
  - now apply cache_sound_load.
  - now apply cache_sound_run.
Qed.

Lemma not_found_is_not_load_error path e :
  not_found_msg path <> load_error_msg e.
Proof. unfold not_found_msg, load_error_msg. cbn. intros H. discriminate H. Qed.

(** What [main] does once the model is there. *)
Lemma main_after_load inp w model w1 df :
  load_model fs None w = (Ret model, w1) ->
  format_input_data (age_input inp) (vehicle_input inp) (location_input inp)
    = Ok df ->
  main fs inp w =
  if calculate_btn inp then
    match predict (obj_model model) df with
    | Ok ys =>
        match getitem0 ys with
        | Ok y =>
            (Ret tt,
             mk_world (cache w1) (next_id w1) (joblib_calls w1)
                      (S (predict_calls w1))
                      (ui w1 ++ page_head inp
                          ++ [result_usd y; result_ugx (to_ugx y)]
                          ++ page_foot))
        | Err e =>
            (Raise e,
             mk_world (cache w1) (next_id w1) (joblib_calls w1)
                      (S (predict_calls w1)) (ui w1 ++ page_head inp))
        end
    | Err e =>
        (Raise e,
         mk_world (cache w1) (next_id w1) (joblib_calls w1)
                  (S (predict_calls w1)) (ui w1 ++ page_head inp))
    end
  else (Ret tt, set_ui (ui w1 ++ page_head inp ++ page_foot) w1).
Proof.
  intros Hload Hdf. unfold main. unfold bind at 1. rewrite Hload.
  unfold compute_premium, model_predict, bind, draw, lift, ret.
  rewrite Hdf. cbn.
  destruct (calculate_btn inp); cbn.
  - destruct (predict (obj_model model) df) as [[| y ys] | e]; cbn;
      unfold page_head, page_foot, set_ui; cbn;
      rewrite <- ?app_assoc; reflexivity.
  - unfold page_head, page_foot, set_ui; cbn.
    rewrite <- ?app_assoc. reflexivity.
Qed.

(** When the model cannot be loaded, [main] stops where [load_model]
    stopped. *)
Lemma main_load_stop inp w w1 :
  load_model fs None w = (Stop, w1) -> main fs inp w = (Stop, w1).
Proof. intros H. unfold main. unfold bind at 1. now rewrite H. Qed.

(** A whole script run once the model is there. *)
Lemma run_script_after_load inp w model w1 df :
  load_model fs None w = (Ret model, w1) ->
  format_input_data (age_input inp) (vehicle_input inp) (location_input inp)
    = Ok df ->
  run_script fs inp w =
  let page els :=
    mk_world (cache w1) (next_id w1) (joblib_calls w1) (S (predict_calls w1))
             (st_markdown APP_CSS :: page_head inp ++ els) in
  if calculate_btn inp then
    match predict (obj_model model) df with
    | Ok ys =>
        match getitem0 ys with
        | Ok y => page ([result_usd y; result_ugx (to_ugx y)] ++ page_foot)%list
        | Err e => page [st_exception e]
        end
    | Err e => page [st_exception e]
    end
  else
    mk_world (cache w1) (next_id w1) (joblib_calls w1) (predict_calls w1)
             (st_markdown APP_CSS :: page_head inp ++ page_foot).
Proof.
  intros Hload Hdf. unfold run_script, app. unfold bind at 1. cbn.
  change (set_ui _ (set_ui [] w)) with (set_ui [st_markdown APP_CSS] w).
  rewrite (main_after_load inp _ model (set_ui [st_markdown APP_CSS] w1) df);
    [| now apply load_model_ret_ui | exact Hdf].
  destruct (calculate_btn inp); [| reflexivity].
  destruct (predict (obj_model model) df) as [ys | e].
  - destruct (getitem0 ys) as [y | e]; cbn; unfold set_ui; cbn;
      rewrite <- ?app_assoc; reflexivity.
  - cbn. unfold set_ui; cbn. rewrite <- ?app_assoc. reflexivity.
Qed.

End Loader.

(** * The model loader *)

(** C4, as it holds: in any state the process can reach, loading a
    path with no file behind it never returns an instance: the script
    stops after one error message, nothing is cached, and [main] stops
    right there, before any prediction, on a page that shows the error
    and no result.  The message is the one of the FileNotFoundError
    branch, and not the general one, when [open] raises
    FileNotFoundError, as it does for a plain missing file; it is the
    general one, carrying the text of the error, when [open] fails with
    any other error. *)
Theorem load_model_missing_path fs w arg e :
  reachable fs w ->
  open_error fs (path_of arg) = Some e ->
  let msg := load_failure_msg (path_of arg) e in
  let w' := mk_world (cache w) (next_id w) (S (joblib_calls w))
                     (predict_calls w) (ui w ++ [st_error msg]) in
  load_model fs arg w = (Stop, w') /\
  cache w' !! arg = None /\
  (forall B (k : instance -> M B), bind (load_model fs arg) k w = (Stop, w')) /\
  (fs !! path_of arg = None -> exc_cls e = FileNotFoundError) /\
  (exc_cls e = FileNotFoundError ->
   msg = not_found_msg (path_of arg) /\ forall e', msg <> load_error_msg e') /\
  (exc_cls e <> FileNotFoundError ->
   msg = load_error_msg e /\ forall path, msg <> not_found_msg path) /\
  (arg = None ->
   forall inp,
     main fs inp w = (Stop, w') /\
     ui (run_script fs inp w) = [st_markdown APP_CSS; st_error msg] /\
     predict_calls (run_script fs inp w) = predict_calls w).
Proof.
  intros Hreach Hopen msg w'.
  assert (Hcache : cache w !! arg = None).
  { destruct (cache w !! arg) as [v |] eqn:Hc; [| reflexivity].
    apply (reachable_cache_sound fs w Hreach) in Hc.
    unfold open_error in Hopen. rewrite Hc in Hopen. discriminate. }
  assert (Hload : forall w0, cache w0 = cache w ->
            load_model fs arg w0 =
            (Stop, mk_world (cache w0) (next_id w0) (S (joblib_calls w0))
                     (predict_calls w0) (ui w0 ++ [st_error msg]))).
  { intros w0 Hw0. rewrite load_model_unfold, Hw0, Hcache.
    unfold open_error in Hopen. unfold msg, load_failure_msg.
    destruct (fs !! path_of arg) as [[m | e0 | e0] |];
      try discriminate; injection Hopen as <-; reflexivity. }
  split; [now apply Hload |].
  split; [exact Hcache |].
  split; [intros B k; unfold bind; now rewrite Hload |].
  split.
  { intros Hnone. unfold open_error in Hopen. rewrite Hnone in Hopen.
    injection Hopen as <-. reflexivity. }
  split.
  { intros Hcls. unfold msg, load_failure_msg, is_FileNotFoundError.
    rewrite Hcls. split; [reflexivity |].
    intros e'. apply not_found_is_not_load_error. }
  split.
  { intros Hcls. unfold msg, load_failure_msg, is_FileNotFoundError.
    destruct (exc_cls e); try congruence;
      (split; [reflexivity |]; intros path H; symmetry in H;
       exact (not_found_is_not_load_error path e H)). }
  intros -> inp. rewrite (main_load_stop fs inp w w') by now apply Hload.
  split; [reflexivity |].
  unfold run_script, app. unfold bind at 1. cbn.
  change (set_ui _ (set_ui [] w)) with (set_ui [st_markdown APP_CSS] w).
  rewrite (main_load_stop fs inp _ _
             (Hload (set_ui [st_markdown APP_CSS] w) eq_refl)).
  split; reflexivity.
Qed.

Lemma load_model_missing_path_witness :
  load_model ∅ (Some "missing.pkl") init_world =
    (Stop,
     mk_world ∅ 0 1 0
       [st_error "❌ Model file not found. Ensure 'missing.pkl' is in the app directory."]).
Proof.
  exact (proj1 (load_model_missing_path ∅ init_world (Some "missing.pkl")
                  (no_such_file "missing.pkl") (reach_init ∅) eq_refl)).
Defined.

(** C4 as stated fails at a path that runs through a regular file:
    nothing exists at the path, [open] raises NotADirectoryError, and
    the message drawn is the general one, not the one for a missing
    file. *)
Lemma load_model_not_a_directory_counterexample :
  let path := "regular_file/m.pkl" in
  let e := not_a_directory path in
  let fs : gmap string artifact := {[ path := Unopenable e ]} in
  open_error fs path = Some e /\
  load_model fs (Some path) init_world =
    (Stop, mk_world ∅ 0 1 0 [st_error (load_error_msg e)]) /\
  load_error_msg e =
    "❌ An error occurred loading the model: [Errno 20] Not a directory: 'regular_file/m.pkl'" /\
  load_error_msg e <> not_found_msg path.
Proof.
  intros path e fs. split; [reflexivity |]. split.
  - rewrite load_model_unfold. reflexivity.
  - split; [reflexivity |]. intros H. symmetry in H.
    exact (not_found_is_not_load_error path e H).
Qed.

(** ** Loading twice *)

Lemma load_repeatedly_hit fs arg v w n :
  cache w !! arg = Some v ->
  load_repeatedly fs arg n w = (repeat (Ret v) n, w).
Proof.
  intros Hc. induction n as [| n IH]; [reflexivity |].
  cbn [load_repeatedly repeat]. rewrite (load_model_hit fs arg w v Hc), IH.
  reflexivity.
Qed.

(** C5, as it holds: when the file at the path unpickles to a model and
    the call was not made before in the process, two calls with the
    same argument, and any number of calls after the first, return the
    same object, the one created by the first call, and [joblib.load]
    has run once.  The cache is keyed on the argument of the call, not
    on the path it resolves to: a call with another argument that names
    the same file, as [load_model()] and
    [load_model('gbm_auto_model.pkl')] do, unpickles the file once more
    and is cached on its own, next to the first. *)
Theorem load_model_cached_once fs arg w m :
  fs !! path_of arg = Some (Pickled m) ->
  cache w !! arg = None ->
  exists v w1,
    load_model fs arg w = (Ret v, w1) /\
    load_model fs arg w1 = (Ret v, w1) /\
    obj_id v = next_id w /\ obj_model v = m /\
    joblib_calls w1 = S (joblib_calls w) /\
    loads_once fs arg w /\
    (forall n, load_repeatedly fs arg (S n) w = (repeat (Ret v) (S n), w1)) /\
    (forall arg2,
        arg2 <> arg -> path_of arg2 = path_of arg -> cache w !! arg2 = None ->
        exists v2 w2,
          load_model fs arg2 w1 = (Ret v2, w2) /\
          obj_model v2 = m /\
          joblib_calls w2 = S (S (joblib_calls w)) /\
          cache w2 !! arg = Some v /\ cache w2 !! arg2 = Some v2).
Proof.
  intros Hfile Hcache.
  pose (v := {| obj_id := next_id w; obj_model := m |}).
  pose (w1 := mk_world (<[arg := v]> (cache w)) (S (next_id w))
                       (S (joblib_calls w)) (predict_calls w) (ui w)).
  assert (H1 : load_model fs arg w = (Ret v, w1)).
  { rewrite load_model_unfold, Hcache, Hfile. reflexivity. }
  assert (Hc1 : cache w1 !! arg = Some v) by (cbn; apply lookup_insert_eq).
  assert (H2 : load_model fs arg w1 = (Ret v, w1)) by now apply load_model_hit.
  exists v, w1. repeat split; try assumption; try reflexivity.
  - exists v, w1, w1. repeat split; assumption || reflexivity.
  - intros n. cbn [load_repeatedly repeat].
    rewrite H1, (load_repeatedly_hit fs arg v w1 n Hc1). reflexivity.
  - intros arg2 Hne Hpath Hc2.
    assert (Hc12 : cache w1 !! arg2 = None)
      by (cbn; rewrite lookup_insert_ne by congruence; exact Hc2).
    eexists. eexists. split.
    { rewrite load_model_unfold, Hc12, Hpath, Hfile. reflexivity. }
    cbn. split; [reflexivity |]. split; [reflexivity |]. split.
    + rewrite lookup_insert_ne by exact Hne. apply lookup_insert_eq.
    + apply lookup_insert_eq.
Qed.

Lemma load_model_cached_once_witness :
  exists v w1,
    load_model (app_dir (stub f2_5)) None init_world = (Ret v, w1) /\
    load_model (app_dir (stub f2_5)) None w1 = (Ret v, w1) /\
    joblib_calls w1 = 1%nat /\
    exists v2 w2,
      load_model (app_dir (stub f2_5)) (Some "gbm_auto_model.pkl") w1
        = (Ret v2, w2) /\
      joblib_calls w2 = 2%nat.
Proof.
  destruct (load_model_cached_once (app_dir (stub f2_5)) None init_world
              (stub f2_5) (lookup_singleton_eq _ _) (lookup_empty _))
    as (v & w1 & H1 & H2 & _ & _ & Hj & _ & _ & Hother).
  exists v, w1. split; [exact H1 |]. split; [exact H2 |]. split; [exact Hj |].
  destruct (Hother (Some "gbm_auto_model.pkl")) as (v2 & w2 & H3 & _ & Hj2 & _).
  - discriminate.
  - reflexivity.
  - apply lookup_empty.
  - exists v2, w2. split; [exact H3 | exact Hj2].
Defined.

(** C5 as stated fails in two ways.  At a path with no file neither
    call returns an instance, nothing is cached, and [joblib.load] runs
    at each call.  And two calls that name the same file in different
    ways, one without argument and one with the default path written
    out, run [joblib.load] twice. *)
Lemma load_model_twice_missing_counterexample :
  let arg := Some "missing.pkl" in
  let err := st_error (not_found_msg "missing.pkl") in
  load_model ∅ arg init_world = (Stop, mk_world ∅ 0 1 0 [err]) /\
  load_model ∅ arg (mk_world ∅ 0 1 0 [err]) = (Stop, mk_world ∅ 0 2 0 [err; err]) /\
  ~ loads_once ∅ arg init_world /\
  ~ (forall fs arg, loads_once fs arg init_world) /\
  let fs := app_dir (stub f2_5) in
  let w1 := snd (load_model fs None init_world) in
  path_of None = path_of (Some "gbm_auto_model.pkl") /\
  joblib_calls w1 = 1%nat /\
  joblib_calls (snd (load_model fs (Some "gbm_auto_model.pkl") w1)) = 2%nat.
Proof.
  intros arg err.
  assert (H1 : load_model ∅ arg init_world = (Stop, mk_world ∅ 0 1 0 [err])).
  { rewrite load_model_unfold. cbn. rewrite !lookup_empty. reflexivity. }
  assert (Hn : ~ loads_once ∅ arg init_world).
  { intros (v & w1 & w2 & H & _). rewrite H1 in H. discriminate H. }
  split; [exact H1 |]. split.
  { rewrite load_model_unfold. cbn. rewrite !lookup_empty. reflexivity. }
  split; [exact Hn |]. split; [intros H; exact (Hn (H ∅ arg)) |].
  intros fs w1. split; [reflexivity |].
  unfold w1. rewrite !load_model_unfold. split; reflexivity.
Qed.

(** * The pipeline: encode, predict, convert *)

Lemma f2_5_value : f2_5 = Float64.of_scaled 5 (-1).
Proof. reflexivity. Qed.

Lemma f9250_value : f9250 = Float64.of_int 9250.
Proof. reflexivity. Qed.

(** C3: when the loaded model answers 2.5 on the frame encoded from
    (40, 5, Suburban), the submission computes usd = 2.5 and
    ugx = 9250.0, which is the binary64 product of 2.5 and 3700, and the
    page shows exactly these two values: neither is rounded on the
    way. *)
Theorem end_to_end_premium fs w model w1 df :
  load_model fs None w = (Ret model, w1) ->
  format_input_data 40 5 "Suburban" = Ok df ->
  predict (obj_model model) df = Ok [f2_5] ->
  compute_premium model 40 5 "Suburban" w1 =
    (Ret (f2_5, f9250),
     mk_world (cache w1) (next_id w1) (joblib_calls w1)
              (S (predict_calls w1)) (ui w1)) /\
  f9250 = Float64.mul f2_5 (Float64.of_int EXCHANGE_RATE) /\
  ui (run_script fs (submit 40 5 "Suburban") w) =
    st_markdown APP_CSS :: page_head (submit 40 5 "Suburban")
      ++ [result_usd f2_5; result_ugx f9250] ++ page_foot.
Proof.
  intros Hload Hdf Hpred. split; [| split].
  - unfold compute_premium, model_predict, bind, lift, ret.
    rewrite Hdf. cbn. rewrite Hpred. reflexivity.
  - reflexivity.
  - rewrite (run_script_after_load fs (submit 40 5 "Suburban") w model w1 df
               Hload Hdf).
    cbn [calculate_btn submit]. rewrite Hpred. reflexivity.
Qed.

Lemma end_to_end_premium_witness :
  ui (run_script (app_dir (stub f2_5)) (submit 40 5 "Suburban") init_world) =
    st_markdown APP_CSS :: page_head (submit 40 5 "Suburban")
      ++ [result_usd f2_5; result_ugx f9250] ++ page_foot.
Proof.
  refine (proj2 (proj2 (end_to_end_premium (app_dir (stub f2_5)) init_world
                          {| obj_id := 0; obj_model := stub f2_5 |}
                          (mk_world {[ None := {| obj_id := 0%nat; obj_model := stub f2_5 |} ]}
                                    1 1 0 [])
                          _ _ eq_refl eq_refl))).
  rewrite load_model_unfold. reflexivity.
Defined.

(** C7: when the model rejects the encoded row, the exception leaves
    [main] uncaught; the run ends with the exception shown on the page
    and no result; the process state survives with the model still
    cached; and a later submission that the model accepts is served
    from the cached model, without loading it again, and shows its
    premium in both currencies. *)
Theorem inference_error_is_per_request fs w model w1 inp df e :
  load_model fs None w = (Ret model, w1) ->
  calculate_btn inp = true ->
  format_input_data (age_input inp) (vehicle_input inp) (location_input inp)
    = Ok df ->
  predict (obj_model model) df = Err e ->
  let w' := run_script fs inp w in
  fst (main fs inp w) = Raise e /\
  ui w' = st_markdown APP_CSS :: page_head inp ++ [st_exception e] /\
  filter is_result (ui w') = [] /\
  cache w' !! None = Some model /\
  forall inp2 df2 y ys,
    calculate_btn inp2 = true ->
    format_input_data (age_input inp2) (vehicle_input inp2)
      (location_input inp2) = Ok df2 ->
    predict (obj_model model) df2 = Ok (y :: ys) ->
    let w'' := run_script fs inp2 w' in
    ui w'' = st_markdown APP_CSS :: page_head inp2
               ++ [result_usd y; result_ugx (to_ugx y)] ++ page_foot /\
    joblib_calls w'' = joblib_calls w' /\
    cache w'' !! None = Some model.
Proof.
  intros Hload Hbtn Hdf Hpred w'.
  assert (Hc1 : cache w1 !! None = Some model)
    by exact (load_model_ret_cached fs None w model w1 Hload).
  assert (Hw' : w' = mk_world (cache w1) (next_id w1) (joblib_calls w1)
                       (S (predict_calls w1))
                       (st_markdown APP_CSS :: page_head inp ++ [st_exception e])).
  { unfold w'. rewrite (run_script_after_load fs inp w model w1 df Hload Hdf).
    rewrite Hbtn, Hpred. reflexivity. }
  split.
  { rewrite (main_after_load fs inp w model w1 df Hload Hdf), Hbtn, Hpred.
    reflexivity. }
  split; [rewrite Hw'; reflexivity |].
  split; [rewrite Hw'; reflexivity |].
  split; [rewrite Hw'; exact Hc1 |].
  intros inp2 df2 y ys Hbtn2 Hdf2 Hpred2 w''.
  assert (Hhit : load_model fs None w' = (Ret model, w')).
  { apply load_model_hit. rewrite Hw'. exact Hc1. }
  unfold w''.
  rewrite (run_script_after_load fs inp2 w' model w' df2 Hhit Hdf2).
  rewrite Hbtn2, Hpred2. cbn.
  split; [reflexivity |]. split; [reflexivity |].
  rewrite Hw'. exact Hc1.
Qed.

Lemma inference_error_is_per_request_witness :
  let fs := app_dir picky in
  let w' := run_script fs (submit 17 5 "Urban") init_world in
  ui w' = st_markdown APP_CSS :: page_head (submit 17 5 "Urban")
            ++ [st_exception shape_error] /\
  ui (run_script fs (submit 40 5 "Urban") w') =
    st_markdown APP_CSS :: page_head (submit 40 5 "Urban")
      ++ [result_usd f2_5; result_ugx f9250] ++ page_foot /\
  joblib_calls (run_script fs (submit 40 5 "Urban") w') = 1%nat.
Proof.
  intros fs w'.
  pose (model := {| obj_id := 0%nat; obj_model := picky |}).
  assert (Hload : load_model fs None init_world =
                  (Ret model, mk_world {[ None := model ]} 1 1 0 [])).
  { rewrite load_model_unfold. reflexivity. }
  destruct (inference_error_is_per_request fs init_world model _
              (submit 17 5 "Urban") _ shape_error
              Hload eq_refl (format_input_data_eq 17 5 "Urban") eq_refl)
    as (_ & Hui & _ & _ & Hnext).
  split; [exact Hui |].
  destruct (Hnext (submit 40 5 "Urban") _ f2_5 []
              eq_refl (format_input_data_eq 40 5 "Urban") eq_refl)
    as (Hui2 & Hj & _).
  split; [exact Hui2 |].
  fold w' in Hj. rewrite Hj. reflexivity.
Defined.

(** * Exact binary64 arithmetic on whole numbers *)

Section Exact.

Local Abbreviation prec := Float64.prec.
Local Abbreviation emax := Float64.emax.

Lemma digits2_pos_bounds (p : positive) :
  2 ^ (Z.pos (digits2_pos p) - 1) <= Z.pos p < 2 ^ Z.pos (digits2_pos p).
Proof.
  induction p as [p IH | p IH |]; cbn [digits2_pos].
  - rewrite Pos2Z.inj_succ, Z.pow_succ_r by lia.
    replace (Z.succ (Z.pos (digits2_pos p)) - 1)
      with (Z.succ (Z.pos (digits2_pos p) - 1)) by lia.
    rewrite Z.pow_succ_r by lia. lia.
  - rewrite Pos2Z.inj_succ, Z.pow_succ_r by lia.
    replace (Z.succ (Z.pos (digits2_pos p)) - 1)
      with (Z.succ (Z.pos (digits2_pos p) - 1)) by lia.
    rewrite Z.pow_succ_r by lia. lia.
  - cbn. lia.
Qed.

Lemma digits2_pos_le (p : positive) (d : Z) :
  Z.pos p < 2 ^ d -> Z.pos (digits2_pos p) <= d.
Proof.
  intros H. destruct (digits2_pos_bounds p) as [Hlo _].
  destruct (Z.le_gt_cases (Z.pos (digits2_pos p)) d) as [Hle | Hgt]; [exact Hle |].
  assert (2 ^ d <= 2 ^ (Z.pos (digits2_pos p) - 1))
    by (destruct (Z.lt_ge_cases d 0);
        [rewrite (Z.pow_neg_r 2 d) by lia; apply Z.pow_nonneg; lia
        | apply Z.pow_le_mono_r; lia]).
  lia.
Qed.

Lemma digits2_pos_ge (p : positive) (d : Z) :
  2 ^ d <= Z.pos p -> 0 <= d -> d + 1 <= Z.pos (digits2_pos p).
Proof.
  intros H Hd. destruct (digits2_pos_bounds p) as [_ Hhi].
  destruct (Z.le_gt_cases (d + 1) (Z.pos (digits2_pos p))) as [Hle | Hgt];
    [exact Hle |].
  assert (2 ^ Z.pos (digits2_pos p) <= 2 ^ d) by (apply Z.pow_le_mono_r; lia).
  lia.
Qed.

(** Shifting a mantissa to the left. *)
Lemma iter_xO_value (m d : positive) :
  Z.pos (Pos.iter xO m d) = Z.pos m * 2 ^ Z.pos d.
Proof.
  induction d as [| d IH] using Pos.peano_ind.
  - cbn. lia.
  - rewrite Pos.iter_succ, Pos2Z.inj_succ, Z.pow_succ_r by lia.
    rewrite Pos2Z.inj_xO, IH. lia.
Qed.

Lemma iter_xO_digits (m d : positive) :
  Z.pos (digits2_pos (Pos.iter xO m d)) = Z.pos (digits2_pos m) + Z.pos d.
Proof.
  induction d as [| d IH] using Pos.peano_ind.
  - cbn [Pos.iter digits2_pos]. lia.
  - rewrite Pos.iter_succ. cbn [digits2_pos].
    rewrite !Pos2Z.inj_succ, IH. lia.
Qed.

Lemma pshl_value (q : positive) (k : Z) :
  0 <= k -> Z.pos (pshl q k) = Z.pos q * 2 ^ k.
Proof.
  intros Hk. destruct k as [| d | d]; cbn [pshl]; [cbn; lia | | lia].
  apply iter_xO_value.
Qed.

Lemma pshl_digits (q : positive) (k : Z) :
  0 <= k -> Z.pos (digits2_pos (pshl q k)) = Z.pos (digits2_pos q) + k.
Proof.
  intros Hk. destruct k as [| d | d]; cbn [pshl]; [lia | | lia].
  apply iter_xO_digits.
Qed.

(** Shifting right what was shifted left loses nothing. *)
Lemma iter_pos_shr_1 (n q : positive) :
  SpecFloat.iter_pos shr_1 n (Build_shr_record (Z.pos (Pos.iter xO q n)) false false) =
  Build_shr_record (Z.pos q) false false.
Proof.
  revert q. induction n as [n IH | n IH |]; intros q; cbn [SpecFloat.iter_pos Pos.iter].
  - cbn [shr_1 orb]. rewrite IH, IH. reflexivity.
  - rewrite IH, IH. reflexivity.
  - reflexivity.
Qed.

Lemma shr_fexp_exact (q : positive) (k e : Z) :
  Z.pos (digits2_pos q) = 53 -> 0 <= k -> -1074 <= e + k ->
  shr_fexp prec emax (Z.pos (pshl q k)) e loc_Exact =
  (Build_shr_record (Z.pos q) false false, e + k).
Proof.
  intros Hq Hk He. unfold shr_fexp. cbn [Zdigits2 shr_record_of_loc].
  rewrite pshl_digits, Hq by exact Hk.
  replace (fexp prec emax (53 + k + e) - e) with k
    by (unfold fexp, emin, Float64.prec, Float64.emax; lia).
  destruct k as [| d | d]; cbn [shr pshl]; [f_equal; lia | | lia].
  rewrite iter_pos_shr_1. reflexivity.
Qed.

(** Rounding a mantissa that fits: the 53 leading bits and the exponent
    moved by the number of dropped zero bits. *)
Lemma binary_round_aux_exact (s : bool) (m q : positive) (k e : Z) :
  Z.pos m = Z.pos q * 2 ^ k -> 0 <= k ->
  Z.pos (digits2_pos q) = 53 -> -1074 <= e + k <= 971 ->
  binary_round_aux prec emax s (Z.pos m) e loc_Exact = S754_finite s q (e + k).
Proof.
  intros Hm Hk Hq He.
  assert (m = pshl q k) as -> by (apply Pos2Z.inj; rewrite pshl_value; assumption).
  unfold binary_round_aux.
  rewrite shr_fexp_exact by (assumption || lia).
  cbn [shr_m loc_of_shr_record round_nearest_even].
  change (Z.pos q) with (Z.pos (pshl q 0)).
  rewrite shr_fexp_exact by (assumption || lia).
  cbn [shr_m]. rewrite Z.add_0_r.
  replace (Z.leb (e + k) (emax - prec)) with true; [reflexivity |].
  symmetry. apply Z.leb_le. unfold Float64.prec, Float64.emax. lia.
Qed.

Lemma shl_align_le (m : positive) (e e' : Z) :
  e' <= e ->
  shl_align m e e' = (pshl m (e - e'), e').
Proof.
  intros Hle. unfold shl_align.
  destruct (e' - e) as [| d | d] eqn:Hd; [| lia |].
  - replace (e - e') with 0 by lia. cbn [pshl]. f_equal. lia.
  - replace (e - e') with (Z.pos d) by lia. reflexivity.
Qed.

Lemma shl_align_gt (m : positive) (e e' : Z) :
  e < e' -> shl_align m e e' = (m, e).
Proof.
  intros Hlt. unfold shl_align.
  destruct (e' - e) as [| d | d] eqn:Hd; [reflexivity | reflexivity | lia].
Qed.

Lemma pshl_53 (p : positive) :
  Z.pos p < 2 ^ 53 ->
  Z.pos (digits2_pos (pshl p (53 - Z.pos (digits2_pos p)))) = 53.
Proof.
  intros Hp. pose proof (digits2_pos_le p 53 Hp). rewrite pshl_digits; lia.
Qed.

(** Rounding the value [p * 2^k * 2^-k] of a whole number [p] below
    [2^53] gives the canonical float of [p]. *)
Lemma binary_round_exact (s : bool) (m p : positive) (k e : Z) :
  Z.pos m = Z.pos p * 2 ^ k -> 0 <= k -> e = - k -> Z.pos p < 2 ^ 53 ->
  binary_round prec emax s m e = canon s p.
Proof.
  intros Hm Hk -> Hp.
  pose proof (digits2_pos_le p 53 Hp) as Hd.
  assert (Hdm : Z.pos (digits2_pos m) = Z.pos (digits2_pos p) + k).
  { replace m with (pshl p k)
      by (apply Pos2Z.inj; rewrite pshl_value; [congruence | exact Hk]).
    apply pshl_digits, Hk. }
  unfold binary_round, canon. rewrite Hdm.
  set (d := Z.pos (digits2_pos p)) in *.
  replace (fexp prec emax (d + k + - k)) with (d - 53)
    by (unfold fexp, emin, Float64.prec, Float64.emax; lia).
  destruct (Z.le_gt_cases (d - 53) (- k)) as [Hle | Hgt].
  - rewrite shl_align_le by exact Hle.
    rewrite (binary_round_aux_exact s _ (pshl p (53 - d)) 0 (d - 53)).
    + f_equal. lia.
    + rewrite !pshl_value by lia. rewrite Hm, <- !Z.mul_assoc, <- !Z.pow_add_r by lia.
      do 2 f_equal. lia.
    + lia.
    + apply pshl_53, Hp.
    + lia.
  - rewrite shl_align_gt by lia.
    rewrite (binary_round_aux_exact s m (pshl p (53 - d)) (k - (53 - d)) (- k)).
    + f_equal. lia.
    + rewrite pshl_value by lia. rewrite Hm, <- Z.mul_assoc, <- Z.pow_add_r by lia.
      do 2 f_equal. lia.
    + lia.
    + apply pshl_53, Hp.
    + lia.
Qed.

Lemma of_int_canonZ (z : Z) :
  Z.abs z < 2 ^ 53 -> Float64.of_int z = canonZ z.
Proof.
  intros Hz. unfold Float64.of_int, binary_normalize, canonZ.
  destruct z as [| p | p]; [reflexivity | |];
    apply (binary_round_exact _ p p 0); lia.
Qed.

(** The product of two whole numbers is exact when it stays below
    [2^53]. *)
Lemma mul_canon (s1 s2 : bool) (p1 p2 : positive) :
  Z.pos p1 * Z.pos p2 < 2 ^ 53 ->
  Float64.mul (canon s1 p1) (canon s2 p2) = canon (xorb s1 s2) (p1 * p2).
Proof.
  intros Hp.
  assert (Hp1 : Z.pos p1 < 2 ^ 53) by nia.
  assert (Hp2 : Z.pos p2 < 2 ^ 53) by nia.
  pose proof (digits2_pos_le p1 53 Hp1) as Hd1.
  pose proof (digits2_pos_le p2 53 Hp2) as Hd2.
  pose proof (digits2_pos_le (p1 * p2) 53 Hp) as Hd.
  destruct (digits2_pos_bounds p1) as [Hlo1 _].
  destruct (digits2_pos_bounds p2) as [Hlo2 _].
  assert (Hlo : Z.pos (digits2_pos p1) + Z.pos (digits2_pos p2) - 1
                <= Z.pos (digits2_pos (p1 * p2))).
  { replace (Z.pos (digits2_pos p1) + Z.pos (digits2_pos p2) - 1)
      with ((Z.pos (digits2_pos p1) - 1) + (Z.pos (digits2_pos p2) - 1) + 1)
      by lia.
    apply digits2_pos_ge; [| lia].
    rewrite Z.pow_add_r, Pos2Z.inj_mul by lia.
    apply Z.mul_le_mono_nonneg; try assumption; apply Z.pow_nonneg; lia. }
  unfold Float64.mul, canon, SFmul.
  set (d1 := Z.pos (digits2_pos p1)) in *.
  set (d2 := Z.pos (digits2_pos p2)) in *.
  set (d := Z.pos (digits2_pos (p1 * p2))) in *.
  rewrite (binary_round_aux_exact _ _ (pshl (p1 * p2) (53 - d))
             (53 - d1 - d2 + d)).
  - f_equal. lia.
  - rewrite Pos2Z.inj_mul, !pshl_value by lia. rewrite Pos2Z.inj_mul.
    assert (E : 2 ^ (53 - d1) * 2 ^ (53 - d2)
                = 2 ^ (53 - d) * 2 ^ (53 - d1 - d2 + d))
      by (rewrite <- !Z.pow_add_r by lia; f_equal; lia).
    transitivity (Z.pos p1 * Z.pos p2 * (2 ^ (53 - d1) * 2 ^ (53 - d2)));
      [ring | rewrite E; ring].
  - lia.
  - apply pshl_53, Hp.
  - lia.
Qed.

Lemma cond_Zopp_mul (s : bool) (a c : Z) :
  cond_Zopp s (a * c) = cond_Zopp s a * c.
Proof. destruct s; cbn [cond_Zopp]; lia. Qed.

(** The sum of two whole numbers is exact when it stays below [2^53]. *)
Lemma add_canon (s1 s2 : bool) (p1 p2 : positive) :
  Z.pos p1 < 2 ^ 53 -> Z.pos p2 < 2 ^ 53 ->
  Z.abs (cond_Zopp s1 (Z.pos p1) + cond_Zopp s2 (Z.pos p2)) < 2 ^ 53 ->
  Float64.add (canon s1 p1) (canon s2 p2) =
  canonZ (cond_Zopp s1 (Z.pos p1) + cond_Zopp s2 (Z.pos p2)).
Proof.
  intros Hp1 Hp2 Hsum.
  pose proof (digits2_pos_le p1 53 Hp1) as Hd1.
  pose proof (digits2_pos_le p2 53 Hp2) as Hd2.
  unfold Float64.add, canon, SFadd. cbv beta iota zeta.
  set (d1 := Z.pos (digits2_pos p1)) in *.
  set (d2 := Z.pos (digits2_pos p2)) in *.
  set (ez := Z.min (d1 - 53) (d2 - 53)).
  assert (Hez : ez <= d1 - 53 /\ ez <= d2 - 53 /\ ez <= 0) by lia.
  rewrite !shl_align_le by lia. cbn [fst].
  rewrite !pshl_value by lia.
  replace (Z.pos p1 * 2 ^ (53 - d1) * 2 ^ (d1 - 53 - ez))
    with (Z.pos p1 * 2 ^ (- ez))
    by (rewrite <- Z.mul_assoc, <- Z.pow_add_r by lia; do 2 f_equal; lia).
  replace (Z.pos p2 * 2 ^ (53 - d2) * 2 ^ (d2 - 53 - ez))
    with (Z.pos p2 * 2 ^ (- ez))
    by (rewrite <- Z.mul_assoc, <- Z.pow_add_r by lia; do 2 f_equal; lia).
  rewrite !cond_Zopp_mul, <- Z.mul_add_distr_r.
  destruct (cond_Zopp s1 (Z.pos p1) + cond_Zopp s2 (Z.pos p2))
    as [| p | p]; cbn [canonZ].
  - reflexivity.
  - replace (Z.pos p * 2 ^ (- ez)) with (Z.pos (pshl p (- ez)))
      by (apply pshl_value; lia).
    cbn [binary_normalize].
    apply (binary_round_exact _ _ p (- ez)); [apply pshl_value | ..]; lia.
  - replace (Z.neg p * 2 ^ (- ez)) with (Z.neg (pshl p (- ez)))
      by (rewrite <- !Pos2Z.opp_pos, pshl_value by lia; lia).
    cbn [binary_normalize].
    apply (binary_round_exact _ _ p (- ez)); [apply pshl_value | ..]; lia.
Qed.

Lemma of_int_EXCHANGE_RATE : Float64.of_int EXCHANGE_RATE = canon false 3700.
Proof. reflexivity. Qed.

(** Converting a whole amount is exact while the result stays below
    [2^53]. *)
Lemma to_ugx_of_int (z : Z) :
  Z.abs z * 3700 < 2 ^ 53 ->
  to_ugx (Float64.of_int z) = Float64.of_int (z * 3700).
Proof.
  intros Hz. unfold to_ugx.
  rewrite of_int_EXCHANGE_RATE, !of_int_canonZ by lia.
  destruct z as [| p | p]; cbn [canonZ Z.mul].
  - reflexivity.
  - apply (mul_canon false false). lia.
  - apply (mul_canon true false). lia.
Qed.

Lemma add_of_int (z1 z2 : Z) :
  Z.abs z1 < 2 ^ 53 -> Z.abs z2 < 2 ^ 53 -> Z.abs (z1 + z2) < 2 ^ 53 ->
  Float64.add (Float64.of_int z1) (Float64.of_int z2) = Float64.of_int (z1 + z2).
Proof.
  intros H1 H2 H12. rewrite !of_int_canonZ by assumption.
  destruct z1 as [| p1 | p1], z2 as [| p2 | p2];
    try reflexivity.
  - apply (add_canon false false); assumption || lia.
  - apply (add_canon false true); assumption || lia.
  - apply (add_canon true false); assumption || lia.
  - apply (add_canon true true); assumption || lia.
Qed.

Lemma eqb_canonZ_refl (z : Z) : Float64.eqb (canonZ z) (canonZ z) = true.
Proof.
  unfold Float64.eqb, SFeqb.
  destruct z as [| p | p]; cbn [canonZ canon SFcompare]; [reflexivity | |];
    rewrite Z.compare_refl, Pos.compare_cont_refl; reflexivity.
Qed.

End Exact.

(** * The currency conversion *)

(** C6, as it holds: the conversion is the binary64 product of the
    amount and 3700, it sends 100.0 to 370000.0 and 0.0 to 0.0, and it
    is additive on whole amounts of magnitude up to 2^40, where every
    operation involved is exact. *)
Theorem toSecondaryCurrency_linear_on_whole_amounts :
  (forall usd,
      toSecondaryCurrency usd = Float64.mul usd (Float64.of_int 3700)) /\
  f100 = Float64.of_int 100 /\ f370000 = Float64.of_int 370000 /\
  toSecondaryCurrency f100 = f370000 /\
  toSecondaryCurrency Float64.zero = Float64.zero /\
  (forall a b : Z,
      Z.abs a <= 2 ^ 40 -> Z.abs b <= 2 ^ 40 ->
      toSecondaryCurrency (Float64.add (Float64.of_int a) (Float64.of_int b)) =
        Float64.add (toSecondaryCurrency (Float64.of_int a))
                    (toSecondaryCurrency (Float64.of_int b)) /\
      linear_at (Float64.of_int a) (Float64.of_int b) = true).
Proof.
  repeat (split; [reflexivity |]).
  intros a b Ha Hb.
  assert (H40 : 2 ^ 40 = 1099511627776) by reflexivity.
  assert (H53 : 2 ^ 53 = 9007199254740992) by reflexivity.
  assert (E : toSecondaryCurrency (Float64.add (Float64.of_int a) (Float64.of_int b)) =
              Float64.add (toSecondaryCurrency (Float64.of_int a))
                          (toSecondaryCurrency (Float64.of_int b))).
  { unfold toSecondaryCurrency.
    rewrite add_of_int, !to_ugx_of_int, add_of_int by lia.
    f_equal. ring. }
  split; [exact E |].
  unfold linear_at. rewrite <- E. unfold toSecondaryCurrency.
  rewrite add_of_int, to_ugx_of_int, of_int_canonZ by lia.
  apply eqb_canonZ_refl.
Qed.

Lemma toSecondaryCurrency_linear_on_whole_amounts_witness :
  toSecondaryCurrency (Float64.add (Float64.of_int 100) (Float64.of_int 250)) =
    Float64.add (toSecondaryCurrency (Float64.of_int 100))
                (toSecondaryCurrency (Float64.of_int 250)) /\
  linear_at (Float64.of_int 100) (Float64.of_int 250) = true.
Proof.
  apply (proj2 (proj2 (proj2 (proj2 (proj2
           toSecondaryCurrency_linear_on_whole_amounts)))) 100 250);
    cbn; lia.
Defined.

(** C6 as stated fails: with a = 0.1 and b = 0.2 the two sides differ in
    the last bit of the mantissa (1110.0000000000002 against 1110.0);
    and with a = 2^1013 and b = -2^1012 the left side is finite while
    the right side overflows to infinity. *)
Lemma toSecondaryCurrency_not_linear_counterexample :
  Float64.valid f0_1 = true /\ Float64.valid f0_2 = true /\
  toSecondaryCurrency (Float64.add f0_1 f0_2) =
    S754_finite false 4881831627325441 (-42) /\
  Float64.add (toSecondaryCurrency f0_1) (toSecondaryCurrency f0_2) =
    S754_finite false 4881831627325440 (-42) /\
  linear_at f0_1 f0_2 = false /\
  ~ (forall a b, linear_at a b = true) /\
  let a := S754_finite false (2 ^ 52) 961 in
  let b := S754_finite true (2 ^ 52) 960 in
  Float64.valid a = true /\ Float64.valid b = true /\
  toSecondaryCurrency (Float64.add a b) =
    S754_finite false (3700 * 2 ^ 41) 971 /\
  Float64.add (toSecondaryCurrency a) (toSecondaryCurrency b) =
    S754_infinity false /\
  linear_at a b = false.
Proof.
  repeat (split; [vm_compute; reflexivity |]).
  split.
  - intros H. specialize (H f0_1 f0_2). vm_compute in H. discriminate H.
  - intros a b. repeat split; vm_compute; reflexivity.
Qed.

(** * Further properties of the loader *)

Section LoaderMore.

Variable fs : gmap string artifact.

(** The two ways a call of [load_model] can end. *)
Lemma load_model_cases arg w :
  (exists v w',
      load_model fs arg w = (Ret v, w') /\ cache w' !! arg = Some v /\
      ui w' = ui w /\ predict_calls w' = predict_calls w) \/
  (exists msg,
      load_model fs arg w =
        (Stop, mk_world (cache w) (next_id w) (S (joblib_calls w))
                        (predict_calls w) (ui w ++ [st_error msg])) /\
      cache w !! arg = None).
Proof.
  rewrite load_model_unfold.
  destruct (cache w !! arg) as [v |] eqn:Hc.
  - left. exists v, w. auto.
  - destruct (fs !! path_of arg) as [[m | e | e] |].
    + left. eexists. eexists. split; [reflexivity |].
      cbn. split; [apply lookup_insert_eq | auto].
    + right. eexists. split; reflexivity.
    + right. eexists. split; reflexivity.
    + right. eexists. split; reflexivity.
Qed.

(** What a call leaves of the process state besides the page. *)
Lemma load_model_other_key arg arg' w :
  arg <> arg' ->
  cache (snd (load_model fs arg w)) !! arg' = cache w !! arg'.
Proof.
  intros Hne. rewrite load_model_unfold.
  destruct (cache w !! arg) as [v |]; [reflexivity |].
  destruct (fs !! path_of arg) as [[m | e | e] |]; cbn; try reflexivity.
  now apply lookup_insert_ne.
Qed.

Lemma load_model_keeps arg arg' w v :
  cache w !! arg' = Some v ->
  cache (snd (load_model fs arg w)) !! arg' = Some v.
Proof.
  intros Hc. destruct (decide (arg = arg')) as [<- | Hne].
  - now rewrite (load_model_hit fs arg w v Hc).
  - now rewrite load_model_other_key.
Qed.

Lemma run_script_keeps inp arg w v :
  cache w !! arg = Some v -> cache (run_script fs inp w) !! arg = Some v.
Proof.
  intros Hc. rewrite run_script_cache. now apply load_model_keeps.
Qed.

Lemma session_keeps inps arg w v :
  cache w !! arg = Some v -> cache (session fs inps w) !! arg = Some v.
Proof.
  revert w. induction inps as [| inp inps IH]; intros w Hc; [exact Hc |].
  cbn [session fold_left]. apply IH. now apply run_script_keeps.
Qed.

End LoaderMore.

(** X2: a file whose unpickling raises anything but FileNotFoundError is
    reported with the general message carrying the text of the
    exception, and the failure is not remembered: each of [n] calls in a
    row runs [joblib.load] again and draws the message again, and the
    cache stays as it was. *)
Theorem load_model_corrupt_file_retried fs arg w e n :
  fs !! path_of arg = Some (Corrupt e) ->
  exc_cls e <> FileNotFoundError ->
  cache w !! arg = None ->
  load_repeatedly fs arg n w =
    (repeat Stop n,
     mk_world (cache w) (next_id w) (n + joblib_calls w) (predict_calls w)
              (ui w ++ repeat (st_error (load_error_msg e)) n)).
Proof.
  intros Hfile Hcls. revert w.
  induction n as [| n IH]; intros w Hc.
  - cbn. rewrite app_nil_r. now destruct w.
  - cbn [load_repeatedly]. rewrite load_model_unfold, Hc, Hfile.
    replace (is_FileNotFoundError e) with false
      by (unfold is_FileNotFoundError; destruct (exc_cls e); congruence).
    rewrite IH by exact Hc. cbn.
    rewrite <- app_assoc. do 3 f_equal. lia.
Qed.

Lemma load_model_corrupt_file_retried_witness :
  load_repeatedly {[ "model.pkl" := Corrupt bad_pickle ]} (Some "model.pkl") 2
                  init_world =
    ([Stop; Stop],
     mk_world ∅ 0 2 0
       [st_error "❌ An error occurred loading the model: invalid load key, 'x'.";
        st_error "❌ An error occurred loading the model: invalid load key, 'x'."]).
Proof.
  apply (load_model_corrupt_file_retried
           {[ "model.pkl" := Corrupt bad_pickle ]} (Some "model.pkl")
           init_world bad_pickle 2).
  - apply lookup_singleton_eq.
  - discriminate.
  - apply lookup_empty.
Defined.

(** X3: the cache is never invalidated: an instance cached under a key
    is still the one cached under that key after any call of
    [load_model], after any script run and after any session. *)
Theorem cache_entry_is_permanent fs w arg v :
  cache w !! arg = Some v ->
  (forall arg', cache (snd (load_model fs arg' w)) !! arg = Some v) /\
  (forall inp, cache (run_script fs inp w) !! arg = Some v) /\
  (forall inps, cache (session fs inps w) !! arg = Some v) /\
  (forall inps, load_model fs arg (session fs inps w) =
                (Ret v, session fs inps w)).
Proof.
  intros Hc. repeat split.
  - intros arg'. now apply load_model_keeps.
  - intros inp. now apply run_script_keeps.
  - intros inps. now apply session_keeps.
  - intros inps. apply load_model_hit. now apply session_keeps.
Qed.

Lemma cache_entry_is_permanent_witness :
  let fs := app_dir (stub f2_5) in
  let v := {| obj_id := 0%nat; obj_model := stub f2_5 |} in
  let w := session fs [submit 40 5 "Urban"; submit 17 5 "Rural"]
             (snd (load_model fs None init_world)) in
  load_model fs None w = (Ret v, w).
Proof.
  intros fs v.
  refine (proj2 (proj2 (proj2 (cache_entry_is_permanent fs
                                 (snd (load_model fs None init_world)) None v _)))
            [submit 40 5 "Urban"; submit 17 5 "Rural"]).
  rewrite load_model_unfold. reflexivity.
Defined.

(** * Script runs and sessions *)

Section Runs.

Variable fs : gmap string artifact.

(** A run either finds the model, or shows one error and nothing else. *)
Lemma run_script_cases inp w :
  (exists model w1, load_model fs None w = (Ret model, w1)) \/
  (exists msg,
      cache w !! None = None /\
      (forall m, fs !! default_model_path <> Some (Pickled m)) /\
      run_script fs inp w =
        mk_world (cache w) (next_id w) (S (joblib_calls w)) (predict_calls w)
                 [st_markdown APP_CSS; st_error msg]).
Proof.
  destruct (load_model fs None w) as [o w1] eqn:Hload.
  destruct o as [model | e |].
  - left. eauto.
  - exfalso. destruct (load_model_cases fs None w)
      as [(v & w' & H & _) | (msg & H & _)]; congruence.
  - right. rewrite load_model_unfold in Hload.
    destruct (cache w !! None) as [v |] eqn:Hc; [discriminate |].
    assert (Hstop : forall msg,
               load_model fs None (set_ui [st_markdown APP_CSS] w) =
                 (Stop, mk_world (cache w) (next_id w) (S (joblib_calls w))
                          (predict_calls w) [st_markdown APP_CSS; st_error msg]) ->
               run_script fs inp w =
                 mk_world (cache w) (next_id w) (S (joblib_calls w))
                          (predict_calls w) [st_markdown APP_CSS; st_error msg]).
    { intros msg H. unfold run_script, app. unfold bind at 1. cbn.
      change (set_ui _ (set_ui [] w)) with (set_ui [st_markdown APP_CSS] w).
      rewrite (main_load_stop fs inp _ _ H). reflexivity. }
    change (path_of None) with default_model_path in Hload.
    destruct (fs !! default_model_path) as [[m | e | e] |] eqn:Hf;
      [discriminate | | |].
    + eexists. split; [reflexivity |]. split; [congruence |].
      apply Hstop. rewrite load_model_unfold. cbn.
      change (path_of None) with default_model_path. rewrite Hc, Hf.
      reflexivity.
    + eexists. split; [reflexivity |]. split; [congruence |].
      apply Hstop. rewrite load_model_unfold. cbn.
      change (path_of None) with default_model_path. rewrite Hc, Hf.
      reflexivity.
    + eexists. split; [reflexivity |]. split; [congruence |].
      apply Hstop. rewrite load_model_unfold. cbn.
      change (path_of None) with default_model_path. rewrite Hc, Hf.
      reflexivity.
Qed.




End Runs.



(** X6: while the model file is missing, every run tries to load it
    again and ends on the same error page; no run reaches a prediction
    and the cache stays as it was. *)
Theorem session_without_model_file fs w inps :
  fs !! default_model_path = None ->
  cache w !! None = None ->
  let w' := session fs inps w in
  joblib_calls w' = (length inps + joblib_calls w)%nat /\
  predict_calls w' = predict_calls w /\
  cache w' = cache w /\
  (inps <> [] ->
   ui w' = [st_markdown APP_CSS; st_error (not_found_msg default_model_path)]).
Proof.
  intros Hf. revert w.
  assert (Hrun : forall inp w, cache w !! None = None ->
            run_script fs inp w =
              mk_world (cache w) (next_id w) (S (joblib_calls w))
                       (predict_calls w)
                       [st_markdown APP_CSS;
                        st_error (not_found_msg default_model_path)]).
  { intros inp w Hc. unfold run_script, app. unfold bind at 1. cbn.
    change (set_ui _ (set_ui [] w)) with (set_ui [st_markdown APP_CSS] w).
    rewrite (main_load_stop fs inp _
               (mk_world (cache w) (next_id w) (S (joblib_calls w))
                  (predict_calls w)
                  [st_markdown APP_CSS;
                   st_error (not_found_msg default_model_path)]));
      [reflexivity |].
    rewrite load_model_unfold. cbn.
    change (path_of None) with default_model_path. rewrite Hc, Hf.
    reflexivity. }
  induction inps as [| inp inps IH] using rev_ind; intros w Hc w'.
  - cbn. repeat split; congruence.
  - unfold w', session. rewrite fold_left_app. cbn [fold_left].
    fold (session fs inps w).
    destruct (IH w Hc) as (Hj & Hp & Hcache & _).
    rewrite Hrun by (rewrite Hcache; exact Hc). cbn.
    rewrite Hj, Hp, Hcache, length_app. cbn.
    repeat split. lia.
Qed.

Lemma session_without_model_file_witness :
  let w' := session ∅ [submit 40 5 "Urban"; submit 41 5 "Urban"] init_world in
  joblib_calls w' = 2%nat /\ predict_calls w' = 0%nat /\
  ui w' = [st_markdown APP_CSS; st_error (not_found_msg default_model_path)].
Proof.
  intros w'.
  destruct (session_without_model_file ∅ init_world
              [submit 40 5 "Urban"; submit 41 5 "Urban"]
              (lookup_empty _) (lookup_empty _)) as (Hj & Hp & _ & Hu).
  split; [exact Hj |]. split; [exact Hp |]. apply Hu. discriminate.
Defined.

(** X7: whatever the files, the state and the inputs, a run hands to
    the result cards either no value at all or, after a click, exactly
    one USD value followed by one UGX value, and the UGX value is the
    product of that USD value, not rounded for display, and the
    exchange rate. *)
Theorem shown_premiums_agree fs w inp :
  filter is_result (ui (run_script fs inp w)) = [] \/
  exists y,
    calculate_btn inp = true /\
    filter is_result (ui (run_script fs inp w)) =
      [result_usd y; result_ugx (Float64.mul y (Float64.of_int EXCHANGE_RATE))].
Proof.
  destruct (run_script_cases fs inp w) as [(model & w1 & Hload) | (msg & _ & _ & ->)];
    [| left; reflexivity].
  rewrite (run_script_after_load fs inp w model w1 _ Hload
             (format_input_data_eq _ _ _)).
  destruct (calculate_btn inp); [| left; reflexivity].
  destruct (predict (obj_model model) _) as [[| y ys] | e];
    [left; reflexivity | right; exists y; split; reflexivity | left; reflexivity].
Qed.

(** X8: of the values the model returns, only the first is used: the
    page is the same whatever follows it; and when the model returns no
    value at all, indexing fails with IndexError, which ends the run
    with the exception on the page and no premium. *)
Theorem only_first_prediction_is_used fs w model w1 inp df ys :
  load_model fs None w = (Ret model, w1) ->
  calculate_btn inp = true ->
  format_input_data (age_input inp) (vehicle_input inp) (location_input inp)
    = Ok df ->
  predict (obj_model model) df = Ok ys ->
  match ys with
  | y :: _ =>
      ui (run_script fs inp w) =
        st_markdown APP_CSS :: page_head inp
          ++ [result_usd y; result_ugx (to_ugx y)] ++ page_foot
  | [] =>
      fst (main fs inp w) =
        Raise (mk_exception IndexError
                 "index 0 is out of bounds for axis 0 with size 0") /\
      ui (run_script fs inp w) =
        st_markdown APP_CSS :: page_head inp
          ++ [st_exception (mk_exception IndexError
                 "index 0 is out of bounds for axis 0 with size 0")]
  end.
Proof.
  intros Hload Hbtn Hdf Hpred.
  rewrite (run_script_after_load fs inp w model w1 df Hload Hdf).
  rewrite (main_after_load fs inp w model w1 df Hload Hdf).
  rewrite Hbtn, Hpred. destruct ys as [| y ys]; cbn; auto.
Qed.

Lemma only_first_prediction_is_used_witness :
  let m := {| predict := fun _ => Ok [f2_5; f100; f9250] |} in
  ui (run_script (app_dir m) (submit 40 5 "Urban") init_world) =
    st_markdown APP_CSS :: page_head (submit 40 5 "Urban")
      ++ [result_usd f2_5; result_ugx f9250] ++ page_foot.
Proof.
  intros m.
  refine (only_first_prediction_is_used (app_dir m) init_world
            {| obj_id := 0%nat; obj_model := m |}
            (mk_world {[ None := {| obj_id := 0%nat; obj_model := m |} ]} 1 1 0 [])
            (submit 40 5 "Urban") _ [f2_5; f100; f9250]
            _ eq_refl (format_input_data_eq 40 5 "Urban") eq_refl).
  rewrite load_model_unfold. reflexivity.
Defined.

(** X9: for inputs within the bounds the form's widgets declare, and
    in any state of the process in which the model is cached or can be
    loaded, the page of a run depends on the model only through its
    answers on rows of valid risk inputs: two processes whose models
    agree on those rows draw the same page, however the models differ
    elsewhere. *)
Theorem model_is_asked_about_valid_rows_only
    fs1 fs2 w1 w2 v1 v2 w1' w2' inp :
  load_model fs1 None w1 = (Ret v1, w1') ->
  load_model fs2 None w2 = (Ret v2, w2') ->
  widget_ok inp ->
  (forall age vehicle_age location df,
      valid_RiskInput age vehicle_age location ->
      format_input_data age vehicle_age location = Ok df ->
      predict (obj_model v1) df = predict (obj_model v2) df) ->
  ui (run_script fs1 inp w1) = ui (run_script fs2 inp w2).
Proof.
  intros Hload1 Hload2 Hok Hagree.
  rewrite (run_script_after_load _ inp _ _ _ _ Hload1
             (format_input_data_eq _ _ _)).
  rewrite (run_script_after_load _ inp _ _ _ _ Hload2
             (format_input_data_eq _ _ _)).
  destruct (calculate_btn inp); [| reflexivity].
  rewrite (Hagree (age_input inp) (vehicle_input inp) (location_input inp) _
             Hok (format_input_data_eq _ _ _)).
  destruct (predict (obj_model v2) _) as [ys | e];
    [destruct (getitem0 ys) |]; reflexivity.
Qed.

Lemma model_is_asked_about_valid_rows_only_witness :
  let first := Build_inputs 40 5 "Urban" false in
  ui (run_script (app_dir picky) (submit 80 20 "Rural")
        (run_script (app_dir picky) first init_world)) =
  ui (run_script (app_dir (stub f2_5)) (submit 80 20 "Rural")
        (run_script (app_dir (stub f2_5)) first init_world)).
Proof.
  intros first.
  assert (Hhit : forall m,
            load_model (app_dir m) None (run_script (app_dir m) first init_world)
            = (Ret {| obj_id := 0%nat; obj_model := m |},
               run_script (app_dir m) first init_world)).
  { intros m. apply load_model_hit. rewrite run_script_cache.
    rewrite load_model_unfold. reflexivity. }
  apply (model_is_asked_about_valid_rows_only _ _ _ _ _ _ _ _
           (submit 80 20 "Rural") (Hhit picky) (Hhit (stub f2_5))).
  - unfold widget_ok. cbn. split; [lia | split; [lia | right; right; reflexivity]].
  - intros age vehicle_age location df (Hage & _ & _) Hdf.
    rewrite format_input_data_eq in Hdf. injection Hdf as <-.
    cbn. destruct (Z.ltb_spec age 18); [lia | reflexivity].
Defined.

(** * Further properties of the encoder *)

Lemma get_column_not_in (df : DataFrame) (name : string) :
  name ∉ columns df -> get_column df name = Err (mk_exception KeyError name).
Proof.
  induction df as [| [k c] df IH]; intros Hn; [reflexivity |].
  cbn [get_column]. cbn in Hn. apply not_elem_of_cons in Hn as [Hk Hn].
  destruct (String.eqb_spec k name); [congruence | now apply IH].
Qed.

(** Looking a column up by name does not depend on where it stands, as
    long as no name occurs twice. *)
Lemma get_column_Permutation (d d' : DataFrame) (name : string) :
  d ≡ₚ d' -> NoDup (columns d) -> get_column d name = get_column d' name.
Proof.
  induction 1 as [| [k c] d d' Hp IH | [k1 c1] [k2 c2] d | d d' d'' H1 IH1 H2 IH2];
    intros Hnd.
  - reflexivity.
  - cbn [get_column]. cbn in Hnd. apply NoDup_cons in Hnd as [_ Hnd].
    destruct (String.eqb k name); [reflexivity | now apply IH].
  - cbn [get_column]. cbn in Hnd.
    apply NoDup_cons in Hnd as [Hn _]. apply not_elem_of_cons in Hn as [Hn _].
    destruct (String.eqb_spec k1 name), (String.eqb_spec k2 name);
      congruence.
  - rewrite IH1 by exact Hnd. apply IH2.
    unfold columns. rewrite <- H1. exact Hnd.
Qed.

Lemma same_length_rows (d : pydict) :
  Forall (fun kc => length (snd kc) = 1%nat) d -> same_length d = true.
Proof.
  destruct d as [| [k c] d]; [reflexivity |].
  intros H. apply Forall_cons in H as [Hc H]. cbn in Hc. cbn [same_length].
  apply forallb_forall. intros kc Hin. rewrite Hc. apply Nat.eqb_eq.
  rewrite Forall_forall in H. apply H. now apply list_elem_of_In.
Qed.

(** X10: the column order of the frame comes from the selection by
    [model_feature_order], not from the order in which the dictionary
    was filled: building the frame from the same five entries in any
    other order gives the same frame. *)
Theorem column_order_is_fixed_by_selection age vehicle_age location d :
  input_dict age vehicle_age location ≡ₚ d ->
  rbind (pd_DataFrame d) (fun input_df => getitem input_df model_feature_order)
  = format_input_data age vehicle_age location.
Proof.
  intros Hp. rewrite format_input_data_eq.
  assert (Hlen : same_length d = true).
  { apply same_length_rows. rewrite <- Hp.
    unfold input_dict. repeat constructor. }
  assert (Hnd : NoDup (columns (input_dict age vehicle_age location))).
  { cbn. apply (bool_decide_unpack _). vm_compute. exact I. }
  unfold pd_DataFrame. rewrite Hlen. cbn [rbind].
  unfold getitem, model_feature_order. cbn [rmapM].
  rewrite <- !(get_column_Permutation _ _ _ Hp Hnd). reflexivity.
Qed.

Lemma column_order_is_fixed_by_selection_witness :
  rbind (pd_DataFrame [ ("location_Urban", [1]); ("location_Suburban", [0]);
                        ("location_Rural", [0]); ("vehicle_age", [5]);
                        ("age", [40]) ])
        (fun input_df => getitem input_df model_feature_order)
  = format_input_data 40 5 "Urban".
Proof.
  apply (column_order_is_fixed_by_selection 40 5 "Urban").
  change (input_dict 40 5 "Urban")
    with (rev [ ("location_Urban", [1]); ("location_Suburban", [0]);
                ("location_Rural", [0]); ("vehicle_age", [5]);
                ("age", [40]) ]).
  symmetry. apply Permutation_rev.
Defined.

(** X11: on recognised locations the encoding loses nothing: two inputs
    with the same feature row have the same age, the same vehicle age
    and the same location. *)
Theorem feature_row_injective age vehicle_age location age' vehicle_age' location' :
  (location = "Urban" \/ location = "Suburban" \/ location = "Rural") ->
  (location' = "Urban" \/ location' = "Suburban" \/ location' = "Rural") ->
  feature_row age vehicle_age location = feature_row age' vehicle_age' location' ->
  age = age' /\ vehicle_age = vehicle_age' /\ location = location'.
Proof.
  intros Hl Hl'. rewrite !feature_row_eq. intros [= -> -> Hr Hs Hu].
  split; [reflexivity |]. split; [reflexivity |].
  destruct Hl as [-> | [-> | ->]], Hl' as [-> | [-> | ->]];
    cbn in Hr, Hs, Hu; congruence.
Qed.

Lemma feature_row_injective_witness :
  (40 = 40 /\ 5 = 5 /\ "Urban" = "Urban") /\
  feature_row 40 5 "Urban" <> feature_row 40 5 "Rural".
Proof.
  split.
  - exact (feature_row_injective 40 5 "Urban" 40 5 "Urban"
             (or_introl eq_refl) (or_introl eq_refl) eq_refl).
  - intros H.
    pose proof (feature_row_injective 40 5 "Urban" 40 5 "Rural"
                  (or_introl eq_refl) (or_intror (or_intror eq_refl)) H)
      as (_ & _ & Hloc).
    discriminate Hloc.
Defined.

(** * Further properties of the currency conversion *)

Lemma binary_round_aux_negb (s : bool) (m e : Z) (l : location) :
  binary_round_aux Float64.prec Float64.emax (negb s) m e l =
  SFopp (binary_round_aux Float64.prec Float64.emax s m e l).
Proof.
  unfold binary_round_aux.
  destruct (shr_fexp _ _ m e l) as [mrs' e'].
  destruct (shr_fexp _ _ _ e' loc_Exact) as [mrs'' e''].
  destruct (shr_m mrs'') as [| p | p]; [reflexivity | | reflexivity].
  destruct (Z.leb e'' _); reflexivity.
Qed.

(** X12: the conversion commutes with the sign: the UGX value of [-x]
    is minus the UGX value of [x], for every float, and zeros,
    infinities and [nan] are passed through with their sign. *)
Theorem to_ugx_odd (x : Float64.float) :
  to_ugx (Float64.opp x) = Float64.opp (to_ugx x) /\
  (forall s, to_ugx (S754_zero s) = S754_zero s) /\
  (forall s, to_ugx (S754_infinity s) = S754_infinity s) /\
  to_ugx Float64.nan = Float64.nan.
Proof.
  unfold to_ugx. rewrite of_int_EXCHANGE_RATE. unfold canon, Float64.mul, Float64.opp.
  split; [| repeat split; intros []; reflexivity].
  destruct x as [s | s | | s m e]; cbn [SFopp SFmul].
  - destruct s; reflexivity.
  - destruct s; reflexivity.
  - reflexivity.
  - rewrite <- binary_round_aux_negb. destruct s; reflexivity.
Qed.

(** X13: whole amounts are converted exactly: while 3700 times the
    amount stays below 2^53, the UGX value is the float of 3700 times
    the amount, with no rounding error. *)
Theorem to_ugx_exact_on_whole_amounts (z : Z) :
  Z.abs z * 3700 < 2 ^ 53 ->
  to_ugx (Float64.of_int z) = Float64.of_int (3700 * z) /\
  Float64.eqb (to_ugx (Float64.of_int z)) (Float64.of_int (3700 * z)) = true.
Proof.
  intros Hz. rewrite to_ugx_of_int by exact Hz.
  rewrite (Z.mul_comm z 3700). split; [reflexivity |].
  rewrite of_int_canonZ by lia. apply eqb_canonZ_refl.
Qed.

Lemma to_ugx_exact_on_whole_amounts_witness :
  to_ugx (Float64.of_int 1234567) = Float64.of_int (3700 * 1234567).
Proof.
  apply (to_ugx_exact_on_whole_amounts 1234567). cbn. lia.
Defined.

Section Order.

Lemma digits2_pos_lt (p1 p2 : positive) :
  Z.pos (digits2_pos p1) < Z.pos (digits2_pos p2) -> Z.pos p1 < Z.pos p2.
Proof.
  intros H.
  destruct (digits2_pos_bounds p1) as [_ Hhi].
  destruct (digits2_pos_bounds p2) as [Hlo _].
  assert (2 ^ Z.pos (digits2_pos p1) <= 2 ^ (Z.pos (digits2_pos p2) - 1))
    by (apply Z.pow_le_mono_r; lia).
  lia.
Qed.

(** Comparing the floats of two whole numbers of the same sign. *)
Lemma canon_compare (p1 p2 : positive) :
  Z.pos p1 < 2 ^ 53 -> Z.pos p2 < 2 ^ 53 ->
  match Z.compare (Z.pos (digits2_pos p1) - 53) (Z.pos (digits2_pos p2) - 53) with
  | Lt => Lt
  | Gt => Gt
  | Eq => Pos.compare_cont Eq (pshl p1 (53 - Z.pos (digits2_pos p1)))
                              (pshl p2 (53 - Z.pos (digits2_pos p2)))
  end = Z.compare (Z.pos p1) (Z.pos p2).
Proof.
  intros H1 H2.
  pose proof (digits2_pos_le p1 53 H1) as Hd1.
  pose proof (digits2_pos_le p2 53 H2) as Hd2.
  destruct (Z.compare_spec (Z.pos (digits2_pos p1) - 53)
                           (Z.pos (digits2_pos p2) - 53)) as [E | L | G].
  - assert (Ed : Z.pos (digits2_pos p1) = Z.pos (digits2_pos p2)) by lia.
    rewrite Ed.
    change (Pos.compare_cont Eq ?a ?b) with (Z.compare (Z.pos a) (Z.pos b)).
    rewrite !pshl_value by lia.
    symmetry. apply Zmult_compare_compat_r.
    apply Z.lt_gt, Z.pow_pos_nonneg; lia.
  - symmetry. apply Z.compare_lt_iff, digits2_pos_lt. lia.
  - symmetry. apply Z.compare_gt_iff, digits2_pos_lt. lia.
Qed.

(** Comparing the floats of two whole numbers compares the numbers. *)
Lemma canonZ_compare (x y : Z) :
  Z.abs x < 2 ^ 53 -> Z.abs y < 2 ^ 53 ->
  SFcompare (canonZ x) (canonZ y) = Some (Z.compare x y).
Proof.
  intros Hx Hy.
  destruct x as [| p1 | p1], y as [| p2 | p2]; cbn [canonZ canon SFcompare];
    try reflexivity.
  - f_equal. apply canon_compare; lia.
  - f_equal.
    change (Z.compare (Z.neg p1) (Z.neg p2))
      with (CompOpp (Z.compare (Z.pos p1) (Z.pos p2))).
    rewrite <- (canon_compare p1 p2) by lia.
    destruct (Z.compare _ _); reflexivity.
Qed.

End Order.

(** X14: the conversion keeps the order of whole amounts: while the
    results stay below 2^53, a smaller or equal amount gives a smaller
    or equal UGX value, and a strictly smaller amount a strictly smaller
    one. *)
Theorem to_ugx_monotone_on_whole_amounts (a b : Z) :
  Z.abs a * 3700 < 2 ^ 53 -> Z.abs b * 3700 < 2 ^ 53 ->
  (a <= b ->
   Float64.leb (to_ugx (Float64.of_int a)) (to_ugx (Float64.of_int b)) = true) /\
  (a < b ->
   Float64.ltb (to_ugx (Float64.of_int a)) (to_ugx (Float64.of_int b)) = true).
Proof.
  intros Ha Hb.
  rewrite !to_ugx_of_int by assumption.
  rewrite !of_int_canonZ by lia.
  unfold Float64.leb, Float64.ltb, SFleb, SFltb.
  rewrite canonZ_compare by lia.
  split; intros H.
  - destruct (Z.compare_spec (a * 3700) (b * 3700)); [reflexivity .. | lia].
  - destruct (Z.compare_spec (a * 3700) (b * 3700)); [lia | reflexivity | lia].
Qed.

Lemma to_ugx_monotone_on_whole_amounts_witness :
  Float64.ltb (to_ugx (Float64.of_int (-3))) (to_ugx (Float64.of_int 250)) = true.
Proof.
  apply (to_ugx_monotone_on_whole_amounts (-3) 250); cbn; lia.
Defined.
